(** * pdfpayroll: the payroll calculator and the input validator

    A shallow embedding of [core/calculator.py], [core/validator.py] and
    the summary of [core/report_generator.py].

    Numbers.  The Python code computes on [float] (and on the [int]s of the
    rule tables).  Two models of the amounts are used.

    - Exact amounts: rationals [Q], compared up to [==], with [round(x, 2)]
      the rounding to the nearest hundredth, ties to the even one.  The
      structure of the calculations, the order of the checks and the
      relations between the figures are stated in this model; a sum, a
      product or a rounding tie can differ from the program's in the last
      digit, and NaN has no counterpart.
    - Binary64 amounts (module [Binary64]): Rocq's primitive [float], with
      the operations of the processor and CPython's [round].  The
      provident fund and ESI figures, where a claim is about the very cent
      returned, are stated in this model.

    Dictionaries.  The rule table and the results are records with one
    field per key that the code reads or writes; [benefits], whose
    iteration order the validator observes, is an association list in
    insertion order; [employee_data], a [Dict[str, Any]], is a [gmap] from
    keys to dynamically typed values. *)

From stdpp Require Import gmap strings list.
From Stdlib Require Import QArith Qround Qabs Qminmax Lqa Sorted.
From Stdlib Require Import Floats.

Set Warnings "-inexact-float".

Local Open Scope Q_scope.

(** ** Numbers *)

Module Num.

(** [a < b] on amounts, as a boolean. *)
Definition Qlt_bool (a b : Q) : bool := negb (Qle_bool b a).

(** The integer nearest to [q], ties to even. *)
Definition round_half_even (q : Q) : Z :=
  let n := Qfloor q in
  match Qcompare (q - inject_Z n) (1 # 2) with
  | Lt => n
  | Gt => (n + 1)%Z
  | Eq => if Z.even n then n else (n + 1)%Z
  end.

(** Python's [round(x, 2)]. *)
Definition round2 (x : Q) : Q := round_half_even (x * 100) # 100.

(** Python's two-argument [min]: the first argument unless the second
    is strictly smaller. *)
Definition py_min (a b : Q) : Q := if Qlt_bool b a then b else a.

(** Python's [sum] over the values of a dict, in insertion order. *)
Definition sum_values (benefits : list (string * Q)) : Q :=
  fold_left (fun acc kv => acc + snd kv) benefits 0.


(** A whole amount (no fractional part). *)
Definition is_whole (q : Q) : bool := Qeq_bool q (inject_Z (Qfloor q)).

End Num.
Import Num.

(** ** The rule table ([state_data]) *)

Record slab := {
  slab_min : Q;
  slab_max : option Q;   (* [None] is JSON [null]: an open-ended slab *)
  slab_tax : Q
}.

Record professional_tax_rules := {
  monthly_slabs : list slab;
  annual_ceiling : Q
}.

Record provident_fund_rules := {
  pf_employee_contribution_rate : Q;
  pf_employer_epf_rate : Q;
  pf_employer_pension_rate : Q;
  pf_admin_charges_rate : Q;
  pf_edli_rate : Q;
  pf_salary_ceiling : Q
}.

Record esi_rules := {
  esi_employee_contribution_rate : Q;
  esi_employer_contribution_rate : Q;
  esi_income_threshold : Q
}.

Record labour_welfare_fund_rules := {
  lwf_employee_amount : Q;
  lwf_employer_amount : Q;
  lwf_payment_frequency : string
}.

Record state_data := {
  state_name : string;
  professional_tax : professional_tax_rules;
  provident_fund : provident_fund_rules;
  esi : esi_rules;
  labour_welfare_fund : labour_welfare_fund_rules
}.

(** ** The results of the calculator *)

Record pf_details := {
  pf_employee_contribution : Q;
  pf_employer_epf_contribution : Q;
  pf_employer_pension_contribution : Q;
  pf_admin_charges : Q;
  pf_edli_charges : Q;
  pf_total_employer_contribution : Q;
  pf_total_pf_contribution : Q
}.

Record esi_details := {
  esi_applicable_flag : bool;
  esi_employee_contribution : Q;
  esi_employer_contribution : Q;
  esi_total_contribution : Q
}.

Record lwf_details := {
  lwf_employee_contribution : Q;
  lwf_employer_contribution : Q;
  lwf_total_contribution : Q;
  lwf_frequency : string
}.

Record deductions := {
  d_professional_tax : Q;
  d_pf_contribution : Q;
  d_esi_contribution : Q;
  d_labour_welfare_fund : Q;
  d_total_deductions : Q
}.

Record employee_view := {
  ev_base_salary : Q;
  ev_benefits : list (string * Q);
  ev_gross_salary : Q;
  ev_deductions : deductions;
  ev_net_salary : Q
}.

Record employer_pf := {
  er_epf_contribution : Q;
  er_pension_contribution : Q;
  er_admin_charges : Q;
  er_edli_charges : Q
}.

Record employer_view := {
  er_pf_details : employer_pf;
  er_esi_contribution : Q;
  er_labour_welfare_fund : Q;
  er_total_contributions : Q
}.

Record ctc_check := {
  ctc_provided : Q;
  ctc_calculated : Q;
  ctc_difference : Q
}.

Record compliance := {
  compliance_state : string;
  esi_applicable : bool;
  professional_tax_applicable : bool
}.

Record salary_breakdown := {
  employee_monthly : employee_view;
  employee_annual : employee_view;
  employer_monthly : employer_view;
  employer_annual : employer_view;
  ctc_info : ctc_check;
  compliance_info : compliance
}.

(** ** [PayrollCalculator] *)

Module Calculator.

(** The test of one slab in the loop of [calculate_professional_tax]:
    [max_val is None and monthly_salary >= min_val], else
    [min_val <= monthly_salary <= max_val]. *)
Definition slab_matches (monthly_salary : Q) (s : slab) : bool :=
  match slab_max s with
  | None => Qle_bool (slab_min s) monthly_salary
  | Some max_val =>
      Qle_bool (slab_min s) monthly_salary && Qle_bool monthly_salary max_val
  end.

(** The [for slab in slabs: ... break] loop, [tax_amount] starting at 0. *)
Fixpoint scan_slabs (slabs : list slab) (monthly_salary : Q) : Q :=
  match slabs with
  | [] => 0
  | s :: rest =>
      if slab_matches monthly_salary s then slab_tax s
      else scan_slabs rest monthly_salary
  end.

Definition calculate_professional_tax (sd : state_data) (monthly_salary : Q) : Q :=
  scan_slabs (monthly_slabs (professional_tax sd)) monthly_salary.

Definition calculate_provident_fund (sd : state_data) (base_salary : Q) : pf_details :=
  let pf_data := provident_fund sd in
  let pf_applicable_salary := py_min base_salary (pf_salary_ceiling pf_data) in
  let employee_contribution :=
    pf_applicable_salary * (pf_employee_contribution_rate pf_data / 100) in
  let employer_epf := pf_applicable_salary * (pf_employer_epf_rate pf_data / 100) in
  let employer_pension :=
    pf_applicable_salary * (pf_employer_pension_rate pf_data / 100) in
  let admin_charges := pf_applicable_salary * (pf_admin_charges_rate pf_data / 100) in
  let edli_charges := pf_applicable_salary * (pf_edli_rate pf_data / 100) in
  {| pf_employee_contribution := round2 employee_contribution;
     pf_employer_epf_contribution := round2 employer_epf;
     pf_employer_pension_contribution := round2 employer_pension;
     pf_admin_charges := round2 admin_charges;
     pf_edli_charges := round2 edli_charges;
     pf_total_employer_contribution :=
       round2 (employer_epf + employer_pension + admin_charges + edli_charges);
     pf_total_pf_contribution :=
       round2 (employee_contribution + employer_epf + employer_pension
               + admin_charges + edli_charges) |}.

Definition calculate_esi (sd : state_data) (gross_salary : Q) : esi_details :=
  let esi_data := esi sd in
  if Qle_bool gross_salary (esi_income_threshold esi_data) then
    let employee_contribution :=
      gross_salary * (esi_employee_contribution_rate esi_data / 100) in
    let employer_contribution :=
      gross_salary * (esi_employer_contribution_rate esi_data / 100) in
    {| esi_applicable_flag := true;
       esi_employee_contribution := round2 employee_contribution;
       esi_employer_contribution := round2 employer_contribution;
       esi_total_contribution :=
         round2 (employee_contribution + employer_contribution) |}
  else
    {| esi_applicable_flag := false;
       esi_employee_contribution := 0;
       esi_employer_contribution := 0;
       esi_total_contribution := 0 |}.

(** Any frequency other than the two tested (such as ["monthly"]) leaves
    the amounts as they are. *)
Definition calculate_labour_welfare_fund (sd : state_data) : lwf_details :=
  let lwf_data := labour_welfare_fund sd in
  let freq := lwf_payment_frequency lwf_data in
  let employee_contribution :=
    if String.eqb freq "semi-annual" then lwf_employee_amount lwf_data / 6
    else if String.eqb freq "annual" then lwf_employee_amount lwf_data / 12
    else lwf_employee_amount lwf_data in
  let employer_contribution :=
    if String.eqb freq "semi-annual" then lwf_employer_amount lwf_data / 6
    else if String.eqb freq "annual" then lwf_employer_amount lwf_data / 12
    else lwf_employer_amount lwf_data in
  {| lwf_employee_contribution := round2 employee_contribution;
     lwf_employer_contribution := round2 employer_contribution;
     lwf_total_contribution := round2 (employee_contribution + employer_contribution);
     lwf_frequency := freq |}.

Definition calculate_net_salary (sd : state_data) (ctc base_salary : Q)
    (benefits : list (string * Q)) : salary_breakdown :=
  let total_benefits := sum_values benefits in
  let gross_salary := base_salary + total_benefits in
  let professional_tax_amount := calculate_professional_tax sd gross_salary in
  let pf := calculate_provident_fund sd base_salary in
  let es := calculate_esi sd gross_salary in
  let lwf := calculate_labour_welfare_fund sd in
  let total_deductions :=
    professional_tax_amount + pf_employee_contribution pf
    + esi_employee_contribution es + lwf_employee_contribution lwf in
  let net_salary := gross_salary - total_deductions in
  let employer_contributions :=
    pf_total_employer_contribution pf + esi_employer_contribution es
    + lwf_employer_contribution lwf in
  let calculated_ctc := (gross_salary + employer_contributions) * 12 in
  let ctc_diff := Qabs (calculated_ctc - ctc) in
  let ceiling := annual_ceiling (professional_tax sd) in
  {| employee_monthly :=
       {| ev_base_salary := base_salary;
          ev_benefits := benefits;
          ev_gross_salary := gross_salary;
          ev_deductions :=
            {| d_professional_tax := professional_tax_amount;
               d_pf_contribution := pf_employee_contribution pf;
               d_esi_contribution := esi_employee_contribution es;
               d_labour_welfare_fund := lwf_employee_contribution lwf;
               d_total_deductions := total_deductions |};
          ev_net_salary := net_salary |};
     employee_annual :=
       {| ev_base_salary := base_salary * 12;
          ev_benefits := map (fun kv => (fst kv, snd kv * 12)) benefits;
          ev_gross_salary := gross_salary * 12;
          ev_deductions :=
            {| d_professional_tax := py_min (professional_tax_amount * 12) ceiling;
               d_pf_contribution := pf_employee_contribution pf * 12;
               d_esi_contribution := esi_employee_contribution es * 12;
               d_labour_welfare_fund := lwf_employee_contribution lwf * 12;
               d_total_deductions :=
                 py_min (professional_tax_amount * 12) ceiling
                 + pf_employee_contribution pf * 12
                 + esi_employee_contribution es * 12
                 + lwf_employee_contribution lwf * 12 |};
          ev_net_salary :=
            gross_salary * 12
            - py_min (professional_tax_amount * 12) ceiling
            - pf_employee_contribution pf * 12
            - esi_employee_contribution es * 12
            - lwf_employee_contribution lwf * 12 |};
     employer_monthly :=
       {| er_pf_details :=
            {| er_epf_contribution := pf_employer_epf_contribution pf;
               er_pension_contribution := pf_employer_pension_contribution pf;
               er_admin_charges := pf_admin_charges pf;
               er_edli_charges := pf_edli_charges pf |};
          er_esi_contribution := esi_employer_contribution es;
          er_labour_welfare_fund := lwf_employer_contribution lwf;
          er_total_contributions := employer_contributions |};
     employer_annual :=
       {| er_pf_details :=
            {| er_epf_contribution := pf_employer_epf_contribution pf * 12;
               er_pension_contribution := pf_employer_pension_contribution pf * 12;
               er_admin_charges := pf_admin_charges pf * 12;
               er_edli_charges := pf_edli_charges pf * 12 |};
          er_esi_contribution := esi_employer_contribution es * 12;
          er_labour_welfare_fund := lwf_employer_contribution lwf * 12;
          er_total_contributions := employer_contributions * 12 |};
     ctc_info :=
       {| ctc_provided := ctc;
          ctc_calculated := calculated_ctc;
          ctc_difference := ctc_diff |};
     compliance_info :=
       {| compliance_state := state_name sd;
          esi_applicable := esi_applicable_flag es;
          professional_tax_applicable := Qlt_bool 0 professional_tax_amount |} |}.

End Calculator.
Import Calculator.

(** ** The seeded rule tables ([scripts/data_loader.py]) *)

Definition maharashtra_data : state_data := {|
  state_name := "Maharashtra";
  professional_tax := {|
    monthly_slabs :=
      [ {| slab_min := 0; slab_max := Some 10000; slab_tax := 0 |};
        {| slab_min := 10001; slab_max := Some 15000; slab_tax := 175 |};
        {| slab_min := 15001; slab_max := Some 20000; slab_tax := 200 |};
        {| slab_min := 20001; slab_max := None; slab_tax := 300 |} ];
    annual_ceiling := 2500 |};
  provident_fund := {|
    pf_employee_contribution_rate := 12.0;
    pf_employer_epf_rate := 3.67;
    pf_employer_pension_rate := 8.33;
    pf_admin_charges_rate := 0.5;
    pf_edli_rate := 0.5;
    pf_salary_ceiling := 15000 |};
  esi := {|
    esi_employee_contribution_rate := 0.75;
    esi_employer_contribution_rate := 3.25;
    esi_income_threshold := 21000 |};
  labour_welfare_fund := {|
    lwf_employee_amount := 6;
    lwf_employer_amount := 12;
    lwf_payment_frequency := "semi-annual" |}
|}.

Definition karnataka_data : state_data := {|
  state_name := "Karnataka";
  professional_tax := {|
    monthly_slabs :=
      [ {| slab_min := 0; slab_max := Some 15000; slab_tax := 0 |};
        {| slab_min := 15001; slab_max := Some 25000; slab_tax := 200 |};
        {| slab_min := 25001; slab_max := None; slab_tax := 300 |} ];
    annual_ceiling := 2400 |};
  provident_fund := {|
    pf_employee_contribution_rate := 12.0;
    pf_employer_epf_rate := 3.67;
    pf_employer_pension_rate := 8.33;
    pf_admin_charges_rate := 0.5;
    pf_edli_rate := 0.5;
    pf_salary_ceiling := 15000 |};
  esi := {|
    esi_employee_contribution_rate := 0.75;
    esi_employer_contribution_rate := 3.25;
    esi_income_threshold := 21000 |};
  labour_welfare_fund := {|
    lwf_employee_amount := 20;
    lwf_employer_amount := 40;
    lwf_payment_frequency := "annual" |}
|}.

(** Rule tables that differ from [sd] in one section only. *)
Definition with_labour_welfare_fund (sd : state_data)
    (rules : labour_welfare_fund_rules) : state_data :=
  {| state_name := state_name sd;
     professional_tax := professional_tax sd;
     provident_fund := provident_fund sd;
     esi := esi sd;
     labour_welfare_fund := rules |}.

Definition with_professional_tax (sd : state_data)
    (rules : professional_tax_rules) : state_data :=
  {| state_name := state_name sd;
     professional_tax := rules;
     provident_fund := provident_fund sd;
     esi := esi sd;
     labour_welfare_fund := labour_welfare_fund sd |}.

(** Two small tables: one whose second slab is taxed less than the first,
    one that ends with a closed slab. *)
Definition falling_tax_data : state_data :=
  with_professional_tax maharashtra_data
    {| monthly_slabs :=
         [ {| slab_min := 0; slab_max := Some 10000; slab_tax := 200 |};
           {| slab_min := 10001; slab_max := None; slab_tax := 100 |} ];
       annual_ceiling := 2500 |}.

Definition closed_table_data : state_data :=
  with_professional_tax maharashtra_data
    {| monthly_slabs :=
         [ {| slab_min := 0; slab_max := Some 10000; slab_tax := 100 |};
           {| slab_min := 10001; slab_max := Some 20000; slab_tax := 200 |} ];
       annual_ceiling := 2500 |}.

(** ** Well-formed slab tables

    The table conditions of the specification, in its words: slabs sorted
    ascending by [min], contiguous and non-overlapping (each slab starts one
    unit after the previous one ends, as in the seeded tables), and only
    the last slab may be open-ended. *)

Module SlabTable.

Fixpoint well_formed (slabs : list slab) : bool :=
  match slabs with
  | [] => true
  | s :: rest =>
      match slab_max s, rest with
      | None, [] => true
      | None, _ :: _ => false
      | Some _, [] => true
      | Some max_val, next :: _ =>
          Qlt_bool (slab_min s) (slab_min next)
          && Qeq_bool (slab_min next) (max_val + 1)
          && well_formed rest
      end
  end.

(** Every boundary of the table is a whole amount. *)
Definition whole_bounds (slabs : list slab) : bool :=
  forallb (fun s => is_whole (slab_min s)
                    && match slab_max s with
                       | None => true
                       | Some max_val => is_whole max_val
                       end) slabs.

(** The salary does not exceed the end of the last slab. *)
Fixpoint below_top (slabs : list slab) (salary : Q) : bool :=
  match slabs with
  | [] => false
  | s :: rest =>
      match rest with
      | [] => match slab_max s with
              | None => true
              | Some max_val => Qle_bool salary max_val
              end
      | _ :: _ => below_top rest salary
      end
  end.

(** The salary lies between the start of the first slab and the end of
    the last one. *)
Definition in_range (slabs : list slab) (salary : Q) : bool :=
  match slabs with
  | [] => false
  | first :: _ => Qle_bool (slab_min first) salary && below_top slabs salary
  end.

(** The tax amounts do not decrease from one slab to the next. *)
Fixpoint taxes_nondecreasing (slabs : list slab) : bool :=
  match slabs with
  | [] => true
  | s :: rest =>
      match rest with
      | [] => true
      | next :: _ =>
          Qle_bool (slab_tax s) (slab_tax next) && taxes_nondecreasing rest
      end
  end.

(** How many slabs of the table match a salary. *)
Definition count_matches (slabs : list slab) (salary : Q) : nat :=
  length (List.filter (slab_matches salary) slabs).

End SlabTable.
Import SlabTable.

(** ** [PayrollValidator] *)

Module Validator.

(** The values stored in [employee_data]. *)
Inductive value :=
| VNum (q : Q)
| VStr (s : string)
| VDict (items : list (string * Q)).

(** One constructor per [raise ValueError(...)] of the validator, with the
    data its message interpolates; [TypeError_] stands for the exception
    Python raises on a value of the wrong type ([float] of a dict or of a
    string that is no number, [.lower()] of a non-string, [.items()] of a
    non-dict). *)
Inductive error :=
| MissingField (field : string)
| InvalidLocation (location : string) (allowed : list string)
| CtcNotPositive
| BaseSalaryNotPositive
| NegativeBenefit (benefit_name : string)
| GrossExceedsCtc (gross_salary monthly_ctc : Q)
| TypeError_.

Inductive result (A : Type) :=
| Ok (a : A)
| Raise (e : error).
Arguments Ok {A} a.
Arguments Raise {A} e.

(** Exceptions propagate: the rest of the function runs only on [Ok]. *)
#[export] Instance result_bind : MBind result := fun A B k r =>
  match r with
  | Ok a => k a
  | Raise e => Raise e
  end.

#[export] Instance result_ret : MRet result := fun A a => Ok a.

(** [str.lower()] on ASCII text. *)
Definition lower_ascii (c : Ascii.ascii) : Ascii.ascii :=
  let n := Ascii.N_of_ascii c in
  if (65 <=? n)%N && (n <=? 90)%N then Ascii.ascii_of_N (n + 32) else c.

Fixpoint lower (s : string) : string :=
  match s with
  | EmptyString => EmptyString
  | String c rest => String (lower_ascii c) (lower rest)
  end.

(** The validator object; its cache of rule tables is never read. *)
Record validator := { allowed_states : list string }.

(** [PayrollValidator.__init__]. *)
Definition new_validator (allowed : option (list string)) : validator :=
  match allowed with
  | None => {| allowed_states := ["maharashtra"; "karnataka"] |}
  | Some states => {| allowed_states := map lower states |}
  end.

Definition validate_location (v : validator) (location : string) : result string :=
  let location := lower location in
  if decide (location ∈ allowed_states v) then Ok location
  else Raise (InvalidLocation location (allowed_states v)).

(** The two sign checks that open [validate_salary]. *)
Definition check_positive (ctc base_salary : Q) : result unit :=
  if Qle_bool ctc 0 then Raise CtcNotPositive
  else if Qle_bool base_salary 0 then Raise BaseSalaryNotPositive
  else Ok tt.

(** A benefit that passes the test of the loop below. *)
Definition nonnegative (benefit : string * Q) : Prop := 0 <= snd benefit.

(** The loop over [benefits.items()]. *)
Fixpoint check_benefits (benefits : list (string * Q)) : result unit :=
  match benefits with
  | [] => Ok tt
  | (benefit_name, benefit_value) :: rest =>
      if Qlt_bool benefit_value 0 then Raise (NegativeBenefit benefit_name)
      else check_benefits rest
  end.

Definition validate_salary (ctc base_salary : Q) (benefits : list (string * Q))
    : result bool :=
  check_positive ctc base_salary ;;
  check_benefits benefits ;;
  let monthly_ctc := ctc / 12 in
  let total_benefits := sum_values benefits in
  let gross_salary := base_salary + total_benefits in
  if Qlt_bool (monthly_ctc + 1) gross_salary
  then Raise (GrossExceedsCtc gross_salary monthly_ctc)
  else Ok true.

Section EmployeeData.

(** Python's [float] on a string: the number it denotes, if any. *)
Variable float_of_str : string -> option Q.

Definition to_float (x : value) : result Q :=
  match x with
  | VNum q => Ok q
  | VStr s => match float_of_str s with
              | Some q => Ok q
              | None => Raise TypeError_
              end
  | VDict _ => Raise TypeError_
  end.

(** [for field in required_fields: if field not in employee_data: raise]. *)
Fixpoint check_required (fields : list string) (employee_data : gmap string value)
    : result unit :=
  match fields with
  | [] => Ok tt
  | field :: rest =>
      match employee_data !! field with
      | None => Raise (MissingField field)
      | Some _ => check_required rest employee_data
      end
  end.

(** [employee_data[key]], after the membership test has passed. *)
Definition get_item (employee_data : gmap string value) (key : string)
    : result value :=
  match employee_data !! key with
  | Some x => Ok x
  | None => Raise (MissingField key)
  end.

Definition validate_employee_data (v : validator)
    (employee_data : gmap string value) : result (gmap string value) :=
  check_required ["ctc"; "base_salary"; "location"] employee_data ;;
  ctc_value ← get_item employee_data "ctc" ;
  ctc ← to_float ctc_value ;
  base_value ← get_item employee_data "base_salary" ;
  base_salary ← to_float base_value ;
  location ← get_item employee_data "location" ;
  let benefits := default (VDict []) (employee_data !! "benefits") in
  normalized_location ←
    match location with
    | VStr s => validate_location v s
    | _ => Raise TypeError_
    end ;
  match benefits with
  | VDict items => validate_salary ctc base_salary items
  | _ => check_positive ctc base_salary ;; Raise TypeError_
  end ;;
  Ok (<["location" := VStr normalized_location]> employee_data).

End EmployeeData.

End Validator.
Import Validator.

(** The validator and the record of [tests/test_validation.py]. *)
Definition sample_validator : validator :=
  new_validator (Some ["maharashtra"; "karnataka"]).

Definition sample_employee : gmap string value :=
  <["ctc" := VNum 300000]>
    (<["base_salary" := VNum 15000]>
       (<["location" := VStr "Maharashtra"]>
          (<["benefits" := VDict [("hra", 6000); ("conveyance", 1000)]]> ∅))).

(** ** [ReportGenerator]: the summary

    [generate_summary_report] reads the clock for its [generated_at] field;
    the time it reads is the argument [now]. *)

Module ReportGenerator.

Record monthly_summary := {
  ms_gross_salary : Q;
  ms_total_deductions : Q;
  ms_net_salary : Q
}.

Record annual_summary := {
  as_ctc : Q;
  as_gross_salary : Q;
  as_total_deductions : Q;
  as_net_salary : Q
}.

Record key_deductions := {
  kd_pf : Q;
  kd_professional_tax : Q;
  kd_esi : Q
}.

Record summary_report := {
  sr_employee_id : string;
  sr_state : string;
  sr_monthly_summary : monthly_summary;
  sr_annual_summary : annual_summary;
  sr_key_deductions : key_deductions;
  sr_employer_contributions : Q;
  sr_generated_at : string
}.

Definition generate_summary_report (now : string) (employee_id : string)
    (salary_details : salary_breakdown) : summary_report :=
  let monthly := employee_monthly salary_details in
  let annual := employee_annual salary_details in
  let employer := employer_monthly salary_details in
  {| sr_employee_id := employee_id;
     sr_state := compliance_state (compliance_info salary_details);
     sr_monthly_summary :=
       {| ms_gross_salary := ev_gross_salary monthly;
          ms_total_deductions := d_total_deductions (ev_deductions monthly);
          ms_net_salary := ev_net_salary monthly |};
     sr_annual_summary :=
       {| as_ctc := ctc_provided (ctc_info salary_details);
          as_gross_salary := ev_gross_salary annual;
          as_total_deductions := d_total_deductions (ev_deductions annual);
          as_net_salary := ev_net_salary annual |};
     sr_key_deductions :=
       {| kd_pf := d_pf_contribution (ev_deductions monthly);
          kd_professional_tax := d_professional_tax (ev_deductions monthly);
          kd_esi := d_esi_contribution (ev_deductions monthly) |};
     sr_employer_contributions := er_total_contributions employer;
     sr_generated_at := now |}.

End ReportGenerator.
Import ReportGenerator.

(** Reduce the projections of a breakdown, leaving the arithmetic alone. *)
Ltac breakdown_fields :=
  unfold calculate_net_salary; cbv zeta;
  cbn [employee_monthly employee_annual employer_monthly employer_annual
       ctc_info compliance_info
       ev_base_salary ev_benefits ev_gross_salary ev_deductions ev_net_salary
       d_professional_tax d_pf_contribution d_esi_contribution
       d_labour_welfare_fund d_total_deductions
       er_pf_details er_esi_contribution er_labour_welfare_fund
       er_total_contributions er_epf_contribution er_pension_contribution
       er_admin_charges er_edli_charges
       ctc_provided ctc_calculated ctc_difference
       compliance_state esi_applicable professional_tax_applicable].

(** ** Binary64 amounts

    Where a claim is about the very cent that the program returns, the
    amounts are the program's own: IEEE 754 binary64 numbers, with Rocq's
    primitive [float] and its operations.  [round(x, 2)] is CPython's: the
    exact value of [x] is rounded to the nearest hundredth, ties to the even
    one, and the result is the binary64 number nearest to that decimal;
    NaN, the infinities and the zeros round to themselves. *)

Module Binary64.

(** [2 ^ e] as a rational. *)
Definition pow2 (e : Z) : Q :=
  if (0 <=? e)%Z then inject_Z (2 ^ e) else 1 # Z.to_pos (2 ^ (- e)).

(** The exact value of a positive finite number of mantissa [m] and
    exponent [e]. *)
Definition exact_value (m : positive) (e : Z) : Q := inject_Z (Z.pos m) * pow2 e.

(** The binary64 number nearest to a positive rational (ties to even), in
    the range of the normal numbers: the exponent [e] puts the mantissa
    [q / 2 ^ e] between [2 ^ 52] and [2 ^ 53]. *)
Definition nearest (q : Q) : float :=
  let k := (Z.log2 (Qnum q) - Z.log2 (Z.pos (Qden q)))%Z in
  let e0 := (k - 52)%Z in
  let e := if Qlt_bool (q * pow2 (- e0)) (inject_Z (2 ^ 52)) then (e0 - 1)%Z else e0 in
  let m := round_half_even (q * pow2 (- e)) in
  Z.ldexp (PrimFloat.of_uint63 (Uint63.of_Z m)) e.

(** Python's [round(x, 2)] on a [float]. *)
Definition round2 (x : float) : float :=
  match Prim2SF x with
  | S754_finite s m e =>
      let n := round_half_even (exact_value m e * 100) in
      if (n =? 0)%Z then (if s then neg_zero else zero)
      else let r := nearest (n # 100) in if s then PrimFloat.opp r else r
  | _ => x
  end.

(** Python's two-argument [min]. *)
Definition py_min (a b : float) : float := if PrimFloat.ltb b a then b else a.

(** The sections of the rule table that the two functions below read. *)
Record provident_fund_rules := {
  pf_employee_contribution_rate : float;
  pf_employer_epf_rate : float;
  pf_employer_pension_rate : float;
  pf_admin_charges_rate : float;
  pf_edli_rate : float;
  pf_salary_ceiling : float
}.

Record esi_rules := {
  esi_employee_contribution_rate : float;
  esi_employer_contribution_rate : float;
  esi_income_threshold : float
}.

Record pf_details := {
  pf_employee_contribution : float;
  pf_employer_epf_contribution : float;
  pf_employer_pension_contribution : float;
  pf_admin_charges : float;
  pf_edli_charges : float;
  pf_total_employer_contribution : float;
  pf_total_pf_contribution : float
}.

Record esi_details := {
  esi_applicable_flag : bool;
  esi_employee_contribution : float;
  esi_employer_contribution : float;
  esi_total_contribution : float
}.

Local Open Scope float_scope.

(** [calculate_provident_fund], on [self.state_data["provident_fund"]]. *)
Definition calculate_provident_fund (pf_data : provident_fund_rules)
    (base_salary : float) : pf_details :=
  let pf_applicable_salary := py_min base_salary (pf_salary_ceiling pf_data) in
  let employee_contribution :=
    pf_applicable_salary * (pf_employee_contribution_rate pf_data / 100) in
  let employer_epf := pf_applicable_salary * (pf_employer_epf_rate pf_data / 100) in
  let employer_pension :=
    pf_applicable_salary * (pf_employer_pension_rate pf_data / 100) in
  let admin_charges := pf_applicable_salary * (pf_admin_charges_rate pf_data / 100) in
  let edli_charges := pf_applicable_salary * (pf_edli_rate pf_data / 100) in
  {| pf_employee_contribution := round2 employee_contribution;
     pf_employer_epf_contribution := round2 employer_epf;
     pf_employer_pension_contribution := round2 employer_pension;
     pf_admin_charges := round2 admin_charges;
     pf_edli_charges := round2 edli_charges;
     pf_total_employer_contribution :=
       round2 (employer_epf + employer_pension + admin_charges + edli_charges);
     pf_total_pf_contribution :=
       round2 (employee_contribution + employer_epf + employer_pension
               + admin_charges + edli_charges) |}.

(** [calculate_esi], on [self.state_data["esi"]]. *)
Definition calculate_esi (esi_data : esi_rules) (gross_salary : float)
    : esi_details :=
  if gross_salary <=? esi_income_threshold esi_data then
    let employee_contribution :=
      gross_salary * (esi_employee_contribution_rate esi_data / 100) in
    let employer_contribution :=
      gross_salary * (esi_employer_contribution_rate esi_data / 100) in
    {| esi_applicable_flag := true;
       esi_employee_contribution := round2 employee_contribution;
       esi_employer_contribution := round2 employer_contribution;
       esi_total_contribution :=
         round2 (employee_contribution + employer_contribution) |}
  else
    {| esi_applicable_flag := false;
       esi_employee_contribution := 0;
       esi_employer_contribution := 0;
       esi_total_contribution := 0 |}.

(** The two sections as [scripts/data_loader.py] seeds them, for both
    states alike. *)
Definition seeded_provident_fund : provident_fund_rules := {|
  pf_employee_contribution_rate := 12.0;
  pf_employer_epf_rate := 3.67;
  pf_employer_pension_rate := 8.33;
  pf_admin_charges_rate := 0.5;
  pf_edli_rate := 0.5;
  pf_salary_ceiling := 15000 |}.

Definition seeded_esi : esi_rules := {|
  esi_employee_contribution_rate := 0.75;
  esi_employer_contribution_rate := 3.25;
  esi_income_threshold := 21000 |}.

End Binary64.

(** ** Facts about the numeric primitives *)

Section NumFacts.

Lemma Qlt_bool_iff (a b : Q) : Qlt_bool a b = true <-> a < b.
Proof.
  unfold Qlt_bool. rewrite negb_true_iff. split.
  - intros H. apply Qnot_le_lt. intros Hle.
    apply Qle_bool_iff in Hle. congruence.
  - intros H. destruct (Qle_bool b a) eqn:E; [|reflexivity].
    apply Qle_bool_iff in E. exfalso. exact (Qlt_not_le _ _ H E).
Qed.

Lemma Qle_bool_false (a b : Q) : Qle_bool a b = false <-> b < a.
Proof.
  rewrite <- Qlt_bool_iff. unfold Qlt_bool.
  destruct (Qle_bool a b); simpl; split; congruence.
Qed.

Lemma py_min_Qmin (a b : Q) : py_min a b == Qmin a b.
Proof.
  unfold py_min. destruct (Qlt_bool b a) eqn:E.
  - apply Qlt_bool_iff in E. symmetry. apply Q.min_r. lra.
  - symmetry. apply Q.min_l. apply Qnot_lt_le. intros H.
    apply Qlt_bool_iff in H. congruence.
Qed.

Lemma round_half_even_comp (x y : Q) :
  x == y -> round_half_even x = round_half_even y.
Proof.
  intros H. unfold round_half_even.
  rewrite (Qfloor_comp _ _ H).
  assert (Hc : Qcompare (x - inject_Z (Qfloor y)) (1 # 2)
               = Qcompare (y - inject_Z (Qfloor y)) (1 # 2)).
  { apply Qcompare_comp; [rewrite H|]; reflexivity. }
  rewrite Hc. reflexivity.
Qed.

Lemma round_half_even_Z (n : Z) : round_half_even (inject_Z n) = n.
Proof.
  unfold round_half_even. rewrite Qfloor_Z.
  assert (H : Qcompare (inject_Z n - inject_Z n) (1 # 2) = Lt).
  { apply (proj1 (Qlt_alt _ _)). lra. }
  rewrite H. reflexivity.
Qed.

(** The nearest integer is within one half. *)
Lemma round_half_even_close (q : Q) :
  Qabs (inject_Z (round_half_even q) - q) <= 1 # 2.
Proof.
  unfold round_half_even.
  pose proof (Qfloor_le q) as Hlo. pose proof (Qlt_floor q) as Hhi.
  rewrite inject_Z_plus in Hhi. change (inject_Z 1) with 1 in Hhi.
  set (n := Qfloor q) in *.
  assert (Hup : inject_Z (n + 1) == inject_Z n + 1).
  { rewrite inject_Z_plus. reflexivity. }
  destruct (Qcompare (q - inject_Z n) (1 # 2)) eqn:E.
  - apply (proj2 (Qeq_alt _ _)) in E. destruct (Z.even n).
    + apply Qabs_Qle_condition. split; lra.
    + rewrite Hup. apply Qabs_Qle_condition. split; lra.
  - apply (proj2 (Qlt_alt _ _)) in E. apply Qabs_Qle_condition. split; lra.
  - apply (proj2 (Qgt_alt _ _)) in E. rewrite Hup. apply Qabs_Qle_condition. split; lra.
Qed.

Lemma Qmake_100 (n : Z) : n # 100 == inject_Z n * (1 # 100).
Proof. unfold Qeq, Qmult, inject_Z. simpl. lia. Qed.

(** [round2] moves its argument by at most half a hundredth. *)
Lemma round2_close (x : Q) : Qabs (round2 x - x) <= 1 # 200.
Proof.
  unfold round2. rewrite Qmake_100.
  pose proof (round_half_even_close (x * 100)) as H.
  apply Qabs_Qle_condition in H. destruct H as [H1 H2].
  apply Qabs_Qle_condition. split; lra.
Qed.




End NumFacts.

(** ** Provident fund and ESI on binary64 amounts *)

Section Binary64Facts.

Local Open Scope float_scope.

(** Comparing the other way round: strictly below is not at or above. *)
Lemma SFcompare_Lt_swap (x y : spec_float) :
  SFcompare x y = Some Lt -> SFcompare y x = Some Gt.
Proof.
  destruct x as [[]|[]| |[] m1 e1], y as [[]|[]| |[] m2 e2]; simpl;
    try discriminate; try reflexivity.
  - rewrite (Z.compare_antisym e1 e2).
    destruct (e1 ?= e2)%Z eqn:E; simpl; try discriminate; try reflexivity.
    change (PosDef.Pos.compare_cont Eq m1 m2) with (Pos.compare m1 m2).
    change (PosDef.Pos.compare_cont Eq m2 m1) with (Pos.compare m2 m1).
    rewrite (Pos.compare_antisym m1 m2).
    destruct (m1 ?= m2)%positive; simpl; try discriminate; reflexivity.
  - rewrite (Z.compare_antisym e1 e2).
    destruct (e1 ?= e2)%Z eqn:E; simpl; try discriminate; try reflexivity.
    change (PosDef.Pos.compare_cont Eq m1 m2) with (Pos.compare m1 m2).
    change (PosDef.Pos.compare_cont Eq m2 m1) with (Pos.compare m2 m1).
    rewrite (Pos.compare_antisym m1 m2).
    destruct (m1 ?= m2)%positive; simpl; try discriminate; reflexivity.
Qed.

Lemma ltb_not_leb (x y : float) : (x <? y) = true -> (y <=? x) = false.
Proof.
  rewrite ltb_spec, leb_spec. unfold SFltb, SFleb.
  destruct (SFcompare (Prim2SF x) (Prim2SF y)) as [[]|] eqn:E; try discriminate.
  intros _. rewrite (SFcompare_Lt_swap _ _ E). reflexivity.
Qed.

End Binary64Facts.

(** [Binary64.round2] on values whose decimal spelling misleads: 2.675 is
    stored below the tie and 12345 * (0.5 / 100) above it; exact ties go to
    the even hundredth; the sign of a zero result, NaN and the largest
    numbers are kept. *)
Lemma binary64_round2_samples :
  Binary64.round2 2.675%float = 2.67%float
  /\ Binary64.round2 (PrimFloat.mul 12345%float (PrimFloat.div 0.5%float 100%float))
     = 61.73%float
  /\ Binary64.round2 0.125%float = 0.12%float
  /\ Binary64.round2 0.375%float = 0.38%float
  /\ Binary64.round2 (-0.001)%float = neg_zero
  /\ Binary64.round2 1e308%float = 1e308%float
  /\ Binary64.round2 nan = nan.
Proof.
  repeat split; vm_compute; reflexivity.
Qed.

(** C1 (as the code has it), on the program's binary64 amounts: every one
    of the five rates is applied to [min(base_salary, salary_ceiling)] and
    each component is rounded to 2 decimal places on its own; the two
    totals are the sums of the unrounded components, rounded once. *)
Theorem provident_fund_components_binary64
    (pf_data : Binary64.provident_fund_rules) (base_salary : float) :
  let capped := Binary64.py_min base_salary (Binary64.pf_salary_ceiling pf_data) in
  let part rate := PrimFloat.mul capped (PrimFloat.div rate 100%float) in
  let sum a b := PrimFloat.add a b in
  let employee := part (Binary64.pf_employee_contribution_rate pf_data) in
  let epf := part (Binary64.pf_employer_epf_rate pf_data) in
  let pension := part (Binary64.pf_employer_pension_rate pf_data) in
  let admin := part (Binary64.pf_admin_charges_rate pf_data) in
  let edli := part (Binary64.pf_edli_rate pf_data) in
  let r := Binary64.calculate_provident_fund pf_data base_salary in
  capped = (if PrimFloat.ltb (Binary64.pf_salary_ceiling pf_data) base_salary
            then Binary64.pf_salary_ceiling pf_data else base_salary)
  /\ Binary64.pf_employee_contribution r = Binary64.round2 employee
  /\ Binary64.pf_employer_epf_contribution r = Binary64.round2 epf
  /\ Binary64.pf_employer_pension_contribution r = Binary64.round2 pension
  /\ Binary64.pf_admin_charges r = Binary64.round2 admin
  /\ Binary64.pf_edli_charges r = Binary64.round2 edli
  /\ Binary64.pf_total_employer_contribution r
     = Binary64.round2 (sum (sum (sum epf pension) admin) edli)
  /\ Binary64.pf_total_pf_contribution r
     = Binary64.round2 (sum (sum (sum (sum employee epf) pension) admin) edli).
Proof.
  intros capped part sum employee epf pension admin edli r.
  repeat split; reflexivity.
Qed.

(** The figures of the program on the seeded table: 61.73 of admin charges
    on a base salary of 12345, a total employer contribution of 1300.07 on
    10000.5, and on 10000.28 totals of 1300.04 and 2500.07 that are not the
    sums of the rounded components. *)
Lemma provident_fund_binary64_figures :
  let pf := Binary64.calculate_provident_fund Binary64.seeded_provident_fund in
  Binary64.pf_admin_charges (pf 12345%float) = 61.73%float
  /\ Binary64.pf_edli_charges (pf 12345%float) = 61.73%float
  /\ Binary64.pf_total_employer_contribution (pf 10000.5%float) = 1300.07%float
  /\ Binary64.pf_employee_contribution (pf 20000%float) = 1800%float
  /\ Binary64.pf_total_employer_contribution (pf 10000.28%float) = 1300.04%float
  /\ Binary64.pf_total_pf_contribution (pf 10000.28%float) = 2500.07%float
  /\ PrimFloat.eqb
       (Binary64.pf_total_employer_contribution (pf 10000.28%float))
       (PrimFloat.add
          (PrimFloat.add
             (PrimFloat.add
                (Binary64.pf_employer_epf_contribution (pf 10000.28%float))
                (Binary64.pf_employer_pension_contribution (pf 10000.28%float)))
             (Binary64.pf_admin_charges (pf 10000.28%float)))
          (Binary64.pf_edli_charges (pf 10000.28%float))) = false.
Proof.
  repeat split; vm_compute; reflexivity.
Qed.


(** C1 as stated fails: on the Maharashtra table a base salary of 10000.28
    gives a total employer contribution of 1300.04 against 1300.03 for the
    sum of the four rounded components, and a total PF contribution of
    2500.07 against 2500.06. *)
Lemma provident_fund_totals_not_sums_of_rounded :
  let r := calculate_provident_fund maharashtra_data 10000.28 in
  ~ pf_total_employer_contribution r
    == pf_employer_epf_contribution r + pf_employer_pension_contribution r
       + pf_admin_charges r + pf_edli_charges r
  /\ ~ pf_total_pf_contribution r
       == pf_employee_contribution r + pf_employer_epf_contribution r
          + pf_employer_pension_contribution r + pf_admin_charges r
          + pf_edli_charges r.
Proof.
  split; intros H; vm_compute in H; discriminate H.
Qed.

(** ** Employee state insurance *)

(** C5, on the program's binary64 amounts: ESI applies exactly when the
    gross salary is at most the threshold; then both rates are applied to
    the whole gross salary and each result is rounded to 2 decimal places;
    above the threshold the result is not applicable and its three figures
    are 0. *)
Theorem esi_threshold_inclusive_binary64
    (esi_data : Binary64.esi_rules) (gross_salary : float) :
  let threshold := Binary64.esi_income_threshold esi_data in
  let part rate := PrimFloat.mul gross_salary (PrimFloat.div rate 100%float) in
  let r := Binary64.calculate_esi esi_data gross_salary in
  (Binary64.esi_applicable_flag r = true
   <-> PrimFloat.leb gross_salary threshold = true)
  /\ (PrimFloat.leb gross_salary threshold = true ->
      Binary64.esi_applicable_flag r = true
      /\ Binary64.esi_employee_contribution r
         = Binary64.round2 (part (Binary64.esi_employee_contribution_rate esi_data))
      /\ Binary64.esi_employer_contribution r
         = Binary64.round2 (part (Binary64.esi_employer_contribution_rate esi_data)))
  /\ (PrimFloat.ltb threshold gross_salary = true ->
      Binary64.esi_applicable_flag r = false
      /\ Binary64.esi_employee_contribution r = 0%float
      /\ Binary64.esi_employer_contribution r = 0%float
      /\ Binary64.esi_total_contribution r = 0%float).
Proof.
  intros threshold part r. subst r. unfold Binary64.calculate_esi. fold threshold.
  split; [|split].
  - destruct (PrimFloat.leb gross_salary threshold); simpl; tauto.
  - intros H. rewrite H. repeat split.
  - intros H. rewrite (ltb_not_leb _ _ H). repeat split.
Qed.

(** On the seeded table: the threshold of 21000 is applicable, 21001 is not,
    and a gross salary of 18002 pays 135.01 and 585.07. *)
Lemma esi_threshold_inclusive_binary64_witness :
  let esi := Binary64.calculate_esi Binary64.seeded_esi in
  (Binary64.esi_applicable_flag (esi 21000%float) = true
   /\ Binary64.esi_employee_contribution (esi 21000%float) = 157.5%float
   /\ Binary64.esi_employer_contribution (esi 21000%float) = 682.5%float)
  /\ (Binary64.esi_applicable_flag (esi 21001%float) = false
      /\ Binary64.esi_employee_contribution (esi 21001%float) = 0%float
      /\ Binary64.esi_employer_contribution (esi 21001%float) = 0%float
      /\ Binary64.esi_total_contribution (esi 21001%float) = 0%float)
  /\ (Binary64.esi_employee_contribution (esi 18002%float) = 135.01%float
      /\ Binary64.esi_employer_contribution (esi 18002%float) = 585.07%float).
Proof.
  intros esi. split; [|split].
  - destruct (proj1 (proj2 (esi_threshold_inclusive_binary64
                              Binary64.seeded_esi 21000%float)) eq_refl)
      as (H1 & H2 & H3).
    split; [exact H1|]. split.
    + etransitivity; [exact H2|]. vm_compute. reflexivity.
    + etransitivity; [exact H3|]. vm_compute. reflexivity.
  - exact (proj2 (proj2 (esi_threshold_inclusive_binary64
                           Binary64.seeded_esi 21001%float)) eq_refl).
  - destruct (proj1 (proj2 (esi_threshold_inclusive_binary64
                              Binary64.seeded_esi 18002%float)) eq_refl)
      as (_ & H2 & H3).
    split.
    + etransitivity; [exact H2|]. vm_compute. reflexivity.
    + etransitivity; [exact H3|]. vm_compute. reflexivity.
Defined.

(** ** Labour welfare fund *)

(** C9: the fixed amounts of the rule table are divided by 6 for a
    semi-annual and by 12 for an annual payment frequency and rounded to 2
    decimal places, and returned with their rounded total and the
    frequency; 240 a year is 20.00 a month and 12 a half-year is 2.00. *)
Theorem labour_welfare_fund_normalised (sd : state_data) :
  let rules := labour_welfare_fund sd in
  let r := calculate_labour_welfare_fund sd in
  lwf_frequency r = lwf_payment_frequency rules
  /\ (lwf_payment_frequency rules = "semi-annual" ->
      lwf_employee_contribution r = round2 (lwf_employee_amount rules / 6)
      /\ lwf_employer_contribution r = round2 (lwf_employer_amount rules / 6)
      /\ lwf_total_contribution r
         = round2 (lwf_employee_amount rules / 6 + lwf_employer_amount rules / 6)
      /\ (lwf_employer_amount rules == 12 -> lwf_employer_contribution r == 2))
  /\ (lwf_payment_frequency rules = "annual" ->
      lwf_employee_contribution r = round2 (lwf_employee_amount rules / 12)
      /\ lwf_employer_contribution r = round2 (lwf_employer_amount rules / 12)
      /\ lwf_total_contribution r
         = round2 (lwf_employee_amount rules / 12 + lwf_employer_amount rules / 12)
      /\ (lwf_employer_amount rules == 240 -> lwf_employer_contribution r == 20)).
Proof.
  intros rules r. subst r. unfold calculate_labour_welfare_fund. fold rules.
  split; [reflexivity|]. split; intros Hf; rewrite Hf; simpl.
  - repeat split. intros Ha. unfold round2.
    rewrite (round_half_even_comp _ (inject_Z 200)).
    + rewrite round_half_even_Z. reflexivity.
    + rewrite Ha. reflexivity.
  - repeat split. intros Ha. unfold round2.
    rewrite (round_half_even_comp _ (inject_Z 2000)).
    + rewrite round_half_even_Z. reflexivity.
    + rewrite Ha. reflexivity.
Qed.

(** On the seeded tables: Maharashtra pays 12 twice a year, 2.00 a month;
    an employer amount of 240 a year is 20.00 a month. *)
Lemma labour_welfare_fund_normalised_witness :
  lwf_employer_contribution (calculate_labour_welfare_fund maharashtra_data) == 2
  /\ lwf_employer_contribution
       (calculate_labour_welfare_fund
          (with_labour_welfare_fund karnataka_data
             {| lwf_employee_amount := 20; lwf_employer_amount := 240;
                lwf_payment_frequency := "annual" |})) == 20.
Proof.
  split.
  - apply (proj1 (proj2 (labour_welfare_fund_normalised maharashtra_data)));
      reflexivity.
  - apply (proj2 (proj2 (labour_welfare_fund_normalised
              (with_labour_welfare_fund karnataka_data
                 {| lwf_employee_amount := 20; lwf_employer_amount := 240;
                    lwf_payment_frequency := "annual" |}))));
      reflexivity.
Defined.

(** ** Professional tax: the scan of the slabs *)

Lemma slab_matches_iff (salary : Q) (s : slab) :
  slab_matches salary s = true
  <-> slab_min s <= salary
      /\ match slab_max s with
         | None => True
         | Some max_val => salary <= max_val
         end.
Proof.
  unfold slab_matches. destruct (slab_max s) as [max_val|].
  - rewrite andb_true_iff, !Qle_bool_iff. tauto.
  - rewrite Qle_bool_iff. tauto.
Qed.

Lemma scan_slabs_find (slabs : list slab) (salary : Q) :
  scan_slabs slabs salary
  = match List.find (slab_matches salary) slabs with
    | Some s => slab_tax s
    | None => 0
    end.
Proof.
  induction slabs as [|s rest IH]; simpl; [reflexivity|].
  destruct (slab_matches salary s); [reflexivity|exact IH].
Qed.

(** C4: the tax is that of the first slab, in table order, with
    [min <= salary <= max] (or [min <= salary] when [max] is null), and 0
    when there is none; the six values of the sample table. *)
Theorem professional_tax_first_match (sd : state_data) (monthly_salary : Q) :
  let slabs := monthly_slabs (professional_tax sd) in
  calculate_professional_tax sd monthly_salary
  = match List.find (slab_matches monthly_salary) slabs with
    | Some s => slab_tax s
    | None => 0
    end
  /\ (forall s, slab_matches monthly_salary s = true
                <-> slab_min s <= monthly_salary
                    /\ match slab_max s with
                       | None => True
                       | Some max_val => monthly_salary <= max_val
                       end)
  /\ calculate_professional_tax maharashtra_data 9000 = 0
  /\ calculate_professional_tax maharashtra_data 10000 = 0
  /\ calculate_professional_tax maharashtra_data 10001 = 175
  /\ calculate_professional_tax maharashtra_data 20000 = 200
  /\ calculate_professional_tax maharashtra_data 20001 = 300
  /\ calculate_professional_tax maharashtra_data 50000 = 300.
Proof.
  intros slabs. split; [apply scan_slabs_find|].
  split; [intros s; apply slab_matches_iff|].
  repeat split; reflexivity.
Qed.

(** ** The salary breakdown *)

Section NetSalary.

Variable sd : state_data.
Variables ctc base_salary : Q.
Variable benefits : list (string * Q).

Let r := calculate_net_salary sd ctc base_salary benefits.
Let monthly := employee_monthly r.
Let annual := employee_annual r.
Let gross_salary := base_salary + sum_values benefits.




End NetSalary.


(** ** Professional tax on well-formed tables *)

Section StepFunction.

Lemma whole_gap (a b : Q) :
  is_whole a = true -> is_whole b = true -> b < a -> b + 1 <= a.
Proof.
  unfold is_whole. intros Ha Hb Hlt.
  apply Qeq_bool_iff in Ha. apply Qeq_bool_iff in Hb.
  rewrite Ha, Hb in Hlt. rewrite <- Zlt_Qlt in Hlt.
  rewrite Ha, Hb. change 1 with (inject_Z 1). rewrite <- inject_Z_plus.
  rewrite <- Zle_Qle. lia.
Qed.

Lemma well_formed_tail (s : slab) (rest : list slab) :
  well_formed (s :: rest) = true -> well_formed rest = true.
Proof.
  simpl. destruct (slab_max s), rest; try reflexivity; try discriminate.
  rewrite !andb_true_iff. tauto.
Qed.

Lemma well_formed_next (s next : slab) (rest : list slab) :
  well_formed (s :: next :: rest) = true ->
  exists max_val, slab_max s = Some max_val
                  /\ slab_min s < slab_min next
                  /\ slab_min next == max_val + 1.
Proof.
  simpl. destruct (slab_max s) as [max_val|]; [|discriminate].
  rewrite !andb_true_iff, Qlt_bool_iff, Qeq_bool_iff.
  intros [[H1 H2] _]. exists max_val. auto.
Qed.

Lemma whole_bounds_tail (s : slab) (rest : list slab) :
  whole_bounds (s :: rest) = true -> whole_bounds rest = true.
Proof. unfold whole_bounds. simpl. rewrite andb_true_iff. tauto. Qed.

Lemma taxes_nondecreasing_tail (s : slab) (rest : list slab) :
  taxes_nondecreasing (s :: rest) = true -> taxes_nondecreasing rest = true.
Proof.
  simpl. destruct rest; [reflexivity|]. rewrite andb_true_iff. tauto.
Qed.

(** Sorted by [min]: every later slab starts after the first one. *)
Lemma mins_ascending (rest : list slab) :
  forall s, well_formed (s :: rest) = true ->
            Forall (fun s' => slab_min s < slab_min s') rest.
Proof.
  induction rest as [|next rest IH]; intros s Hwf; constructor.
  - destruct (well_formed_next _ _ _ Hwf) as (? & _ & Hlt & _). exact Hlt.
  - destruct (well_formed_next _ _ _ Hwf) as (? & _ & Hlt & _).
    apply well_formed_tail in Hwf.
    eapply Forall_impl; [apply (IH next Hwf)|].
    simpl. intros s' Hs'. lra.
Qed.

Lemma taxes_head_le (rest : list slab) :
  forall s, taxes_nondecreasing (s :: rest) = true ->
            Forall (fun s' => slab_tax s <= slab_tax s') rest.
Proof.
  induction rest as [|next rest IH]; intros s Hnd; constructor.
  - simpl in Hnd. apply andb_true_iff in Hnd. apply Qle_bool_iff, Hnd.
  - assert (Hle : slab_tax s <= slab_tax next).
    { simpl in Hnd. apply andb_true_iff in Hnd. apply Qle_bool_iff, Hnd. }
    apply taxes_nondecreasing_tail in Hnd.
    eapply Forall_impl; [apply (IH next Hnd)|].
    simpl. intros s' Hs'. lra.
Qed.

Lemma slab_matches_below (salary : Q) (s : slab) :
  salary < slab_min s -> slab_matches salary s = false.
Proof.
  intros Hlt. destruct (slab_matches salary s) eqn:E; [|reflexivity].
  apply slab_matches_iff in E. destruct E as [E _]. lra.
Qed.

(** Below the start of a well-formed table nothing matches. *)
Lemma count_matches_below (slabs : list slab) (salary : Q) :
  well_formed slabs = true ->
  match slabs with
  | [] => True
  | first :: _ => salary < slab_min first
  end ->
  count_matches slabs salary = 0%nat.
Proof.
  destruct slabs as [|first rest]; [reflexivity|]. intros Hwf Hlt.
  pose proof (mins_ascending _ _ Hwf) as Hasc.
  unfold count_matches. simpl.
  rewrite (slab_matches_below _ _ Hlt).
  clear Hwf. induction Hasc as [|s' rest' Hs' _ IH]; [reflexivity|].
  simpl. rewrite slab_matches_below by lra. exact IH.
Qed.

(** Non-overlapping: no salary matches two slabs. *)
Lemma count_matches_at_most_one (slabs : list slab) (salary : Q) :
  well_formed slabs = true -> (count_matches slabs salary <= 1)%nat.
Proof.
  induction slabs as [|s rest IH]; intros Hwf; [unfold count_matches; simpl; lia|].
  pose proof (well_formed_tail _ _ Hwf) as Hwf'.
  unfold count_matches in *. simpl.
  destruct (slab_matches salary s) eqn:E; [|auto].
  simpl. enough (length (List.filter (slab_matches salary) rest) = 0%nat) by lia.
  apply (count_matches_below rest salary Hwf').
  destruct rest as [|next rest']; [exact I|].
  destruct (well_formed_next _ _ _ Hwf) as (max_val & Hmax & _ & Hnext).
  apply slab_matches_iff in E. rewrite Hmax in E. lra.
Qed.

(** A salary in range that the first slab does not match is in range of
    the remaining slabs: between whole boundaries there is no gap for a
    whole salary. *)
Lemma in_range_step (s : slab) (rest : list slab) (salary : Q) :
  well_formed (s :: rest) = true ->
  whole_bounds (s :: rest) = true ->
  is_whole salary = true ->
  in_range (s :: rest) salary = true ->
  slab_matches salary s = false ->
  in_range rest salary = true.
Proof.
  intros Hwf Hwb Hw Hin Hno.
  unfold in_range in Hin. apply andb_true_iff in Hin.
  destruct Hin as [Hmin Htop]. apply Qle_bool_iff in Hmin.
  unfold slab_matches in Hno.
  destruct (slab_max s) as [max_val|] eqn:Hmax.
  - apply andb_false_iff in Hno. destruct Hno as [Hno|Hno].
    { apply Qle_bool_false in Hno. lra. }
    apply Qle_bool_false in Hno.
    destruct rest as [|next rest'].
    + simpl in Htop. rewrite Hmax in Htop. apply Qle_bool_iff in Htop. lra.
    + destruct (well_formed_next _ _ _ Hwf) as (max_val' & Hmax' & _ & Hnext).
      rewrite Hmax in Hmax'. injection Hmax' as <-.
      assert (Hwm : is_whole max_val = true).
      { unfold whole_bounds in Hwb. simpl in Hwb. rewrite Hmax in Hwb.
        rewrite !andb_true_iff in Hwb. tauto. }
      pose proof (whole_gap _ _ Hw Hwm Hno) as Hgap.
      unfold in_range. apply andb_true_iff. split.
      * apply Qle_bool_iff. lra.
      * exact Htop.
  - apply Qle_bool_false in Hno. lra.
Qed.

(** In range, the scan stops at the one slab that matches. *)
Lemma scan_slabs_in_range (slabs : list slab) (salary : Q) :
  well_formed slabs = true ->
  whole_bounds slabs = true ->
  is_whole salary = true ->
  in_range slabs salary = true ->
  exists s, In s slabs
            /\ slab_matches salary s = true
            /\ scan_slabs slabs salary = slab_tax s
            /\ count_matches slabs salary = 1%nat.
Proof.
  induction slabs as [|s rest IH]; intros Hwf Hwb Hw Hin; [discriminate|].
  destruct (slab_matches salary s) eqn:E.
  - exists s. split; [left; reflexivity|]. split; [exact E|].
    split; [simpl; rewrite E; reflexivity|].
    pose proof (count_matches_at_most_one (s :: rest) salary Hwf) as Hle.
    unfold count_matches in *. simpl in *. rewrite E in *. simpl in *. lia.
  - pose proof (in_range_step _ _ _ Hwf Hwb Hw Hin E) as Hin'.
    destruct (IH (well_formed_tail _ _ Hwf) (whole_bounds_tail _ _ Hwb) Hw Hin')
      as (s' & Hs' & Hm & Hscan & Hcount).
    exists s'. split; [right; exact Hs'|]. split; [exact Hm|].
    unfold count_matches in *. simpl. rewrite E. auto.
Qed.

End StepFunction.

Section MatchedSalaries.

Lemma count_matches_cons (s : slab) (rest : list slab) (salary : Q) :
  count_matches (s :: rest) salary
  = ((if slab_matches salary s then 1 else 0) + count_matches rest salary)%nat.
Proof.
  unfold count_matches. simpl. destruct (slab_matches salary s); reflexivity.
Qed.

Lemma count_matches_member (slabs : list slab) (salary : Q) (s : slab) :
  In s slabs -> slab_matches salary s = true ->
  (1 <= count_matches slabs salary)%nat.
Proof.
  induction slabs as [|h rest IH]; intros Hin Hm; [destruct Hin|].
  rewrite count_matches_cons. destruct Hin as [->|Hin].
  - rewrite Hm. lia.
  - specialize (IH Hin Hm). lia.
Qed.

Lemma count_matches_exists (slabs : list slab) (salary : Q) :
  (1 <= count_matches slabs salary)%nat ->
  exists s, In s slabs /\ slab_matches salary s = true.
Proof.
  induction slabs as [|h rest IH]; intros H; [unfold count_matches in H; simpl in H; lia|].
  rewrite count_matches_cons in H. destruct (slab_matches salary h) eqn:E.
  - exists h. split; [left; reflexivity|exact E].
  - destruct (IH H) as (s & Hs & Hm). exists s. split; [right; exact Hs|exact Hm].
Qed.

(** A salary that no slab matches gets 0. *)
Lemma scan_slabs_unmatched (slabs : list slab) (salary : Q) :
  count_matches slabs salary = 0%nat -> scan_slabs slabs salary = 0.
Proof.
  induction slabs as [|h rest IH]; intros H; [reflexivity|].
  rewrite count_matches_cons in H. simpl.
  destruct (slab_matches salary h); [lia|]. apply IH. lia.
Qed.

(** On a well-formed table a matched salary gets the amount of the slab
    that matches it, whichever it is. *)
Lemma scan_slabs_matched (slabs : list slab) (salary : Q) (s : slab) :
  well_formed slabs = true ->
  In s slabs -> slab_matches salary s = true ->
  scan_slabs slabs salary = slab_tax s /\ count_matches slabs salary = 1%nat.
Proof.
  intros Hwf Hin Hm.
  pose proof (count_matches_at_most_one slabs salary Hwf) as Hle.
  pose proof (count_matches_member slabs salary s Hin Hm) as Hge.
  split; [|lia]. clear Hge.
  induction slabs as [|h rest IH]; [destruct Hin|].
  rewrite count_matches_cons in Hle. simpl.
  destruct (slab_matches salary h) eqn:E.
  - destruct Hin as [->|Hin]; [reflexivity|].
    pose proof (count_matches_member rest salary s Hin Hm). lia.
  - destruct Hin as [->|Hin]; [congruence|].
    apply IH; [exact (well_formed_tail _ _ Hwf)|exact Hin|lia].
Qed.

(** Every slab after a closed first slab starts beyond its end. *)
Lemma rest_starts_after (s : slab) (rest : list slab) (max_val : Q) :
  well_formed (s :: rest) = true -> slab_max s = Some max_val ->
  Forall (fun s' => max_val < slab_min s') rest.
Proof.
  intros Hwf Hmax. destruct rest as [|next rest']; [constructor|].
  destruct (well_formed_next _ _ _ Hwf) as (max_val' & Hmax' & _ & Hnext).
  rewrite Hmax in Hmax'. injection Hmax' as <-.
  pose proof (mins_ascending _ _ (well_formed_tail _ _ Hwf)) as Hasc.
  constructor; [lra|].
  eapply Forall_impl; [exact Hasc|]. simpl. intros s' Hs'. lra.
Qed.

(** With amounts that do not decrease along the table, the tax does not
    decrease over the salaries that some slab matches. *)
Lemma scan_slabs_monotone_matched (slabs : list slab) (s1 s2 : Q) :
  well_formed slabs = true ->
  taxes_nondecreasing slabs = true ->
  (1 <= count_matches slabs s1)%nat -> (1 <= count_matches slabs s2)%nat ->
  s1 <= s2 ->
  scan_slabs slabs s1 <= scan_slabs slabs s2.
Proof.
  induction slabs as [|h rest IH]; intros Hwf Hnd H1 H2 Hle;
    [unfold count_matches in H1; simpl in H1; lia|].
  pose proof (well_formed_tail _ _ Hwf) as Hwf'.
  rewrite count_matches_cons in H1, H2. simpl.
  destruct (slab_matches s1 h) eqn:E1.
  - destruct (slab_matches s2 h) eqn:E2; [lra|].
    destruct (count_matches_exists rest s2 H2) as (s' & Hs' & Hm').
    destruct (scan_slabs_matched rest s2 s' Hwf' Hs' Hm') as [-> _].
    pose proof (taxes_head_le _ _ Hnd) as Hall.
    rewrite Forall_forall in Hall. apply Hall.
    apply list_elem_of_In. exact Hs'.
  - destruct (count_matches_exists rest s1 H1) as (s' & Hs' & Hm').
    assert (E2 : slab_matches s2 h = false).
    { destruct (slab_matches s2 h) eqn:E2; [|reflexivity]. exfalso.
      apply slab_matches_iff in E2. destruct E2 as [_ E2].
      apply slab_matches_iff in Hm'. destruct Hm' as [Hm' _].
      destruct (slab_max h) as [max_val|] eqn:Hmax.
      - pose proof (rest_starts_after _ _ _ Hwf Hmax) as Hall.
        rewrite Forall_forall in Hall.
        specialize (Hall s' (proj2 (list_elem_of_In _ _) Hs')).
        simpl in Hall. lra.
      - destruct rest as [|next rest']; [destruct Hs'|].
        simpl in Hwf. rewrite Hmax in Hwf. discriminate. }
    rewrite E2 in *.
    apply IH; auto. apply (taxes_nondecreasing_tail _ _ Hnd).
Qed.

End MatchedSalaries.

(** C3 (as the code has it): on a well-formed table no salary matches two
    slabs; a salary that some slab matches, whole or not, matches exactly
    one and the tax is the amount of that slab; a salary that no slab
    matches gets 0; a whole salary within the range of a table whose
    boundaries are whole amounts is matched; and when the amounts of the
    table do not decrease, the tax does not decrease over the salaries that
    some slab matches. *)
Theorem professional_tax_step_function (sd : state_data) :
  let slabs := monthly_slabs (professional_tax sd) in
  well_formed slabs = true ->
  (forall salary, (count_matches slabs salary <= 1)%nat)
  /\ (forall salary s,
        In s slabs -> slab_matches salary s = true ->
        count_matches slabs salary = 1%nat
        /\ calculate_professional_tax sd salary = slab_tax s)
  /\ (forall salary,
        count_matches slabs salary = 0%nat ->
        calculate_professional_tax sd salary = 0)
  /\ (whole_bounds slabs = true ->
      forall salary,
        is_whole salary = true -> in_range slabs salary = true ->
        count_matches slabs salary = 1%nat)
  /\ (taxes_nondecreasing slabs = true ->
      forall s1 s2,
        count_matches slabs s1 = 1%nat -> count_matches slabs s2 = 1%nat ->
        s1 <= s2 ->
        calculate_professional_tax sd s1 <= calculate_professional_tax sd s2).
Proof.
  intros slabs Hwf. unfold calculate_professional_tax. fold slabs.
  split; [intros salary; apply count_matches_at_most_one, Hwf|].
  split.
  { intros salary s Hs Hm.
    destruct (scan_slabs_matched slabs salary s Hwf Hs Hm) as [H1 H2]. auto. }
  split; [intros salary; apply scan_slabs_unmatched|].
  split.
  { intros Hwb salary Hw Hin.
    destruct (scan_slabs_in_range slabs salary Hwf Hwb Hw Hin)
      as (_ & _ & _ & _ & H). exact H. }
  intros Hnd s1 s2 H1 H2 Hle.
  apply scan_slabs_monotone_matched; auto; lia.
Qed.

(** On the Maharashtra table: 12000.75 matches the second slab only, 12000
    is matched as a whole salary in range, and the tax does not fall from
    12000.75 to 25000. *)
Lemma professional_tax_step_function_witness :
  let slabs := monthly_slabs (professional_tax maharashtra_data) in
  (count_matches slabs 12000.75 = 1%nat
   /\ calculate_professional_tax maharashtra_data 12000.75 = 175)
  /\ count_matches slabs 12000 = 1%nat
  /\ calculate_professional_tax maharashtra_data 12000.75
     <= calculate_professional_tax maharashtra_data 25000.
Proof.
  intros slabs.
  destruct (professional_tax_step_function maharashtra_data eq_refl)
    as (_ & Hmatched & _ & Hwhole & Hmono).
  split; [|split].
  - apply (Hmatched 12000.75
             {| slab_min := 10001; slab_max := Some 15000; slab_tax := 175 |}).
    + right. left. reflexivity.
    + reflexivity.
  - apply (Hwhole eq_refl 12000); reflexivity.
  - apply (Hmono eq_refl 12000.75 25000); try reflexivity.
    vm_compute. discriminate.
Defined.

(** C3 as stated fails on tables that meet its conditions.  On the
    Maharashtra table a salary of 15000.5 falls between two slabs: no slab
    matches and the tax is 0, below the 175 due at 12000.  On a table whose
    amounts fall, so does the tax.  On a table that ends with a closed slab,
    a salary above it matches no slab and gets 0, which is not an amount of
    that table. *)
Lemma professional_tax_not_step_function :
  (let slabs := monthly_slabs (professional_tax maharashtra_data) in
   well_formed slabs = true
   /\ count_matches slabs 15000.5 = 0%nat
   /\ 12000 <= 15000.5
   /\ calculate_professional_tax maharashtra_data 15000.5
      < calculate_professional_tax maharashtra_data 12000)
  /\ (let slabs := monthly_slabs (professional_tax falling_tax_data) in
      well_formed slabs = true
      /\ 5000 <= 15000
      /\ calculate_professional_tax falling_tax_data 15000
         < calculate_professional_tax falling_tax_data 5000)
  /\ (let slabs := monthly_slabs (professional_tax closed_table_data) in
      well_formed slabs = true
      /\ count_matches slabs 25000 = 0%nat
      /\ forall s, In s slabs ->
                   ~ calculate_professional_tax closed_table_data 25000 == slab_tax s).
Proof.
  repeat split; try reflexivity; try (vm_compute; discriminate).
  intros s Hs H. simpl in Hs.
  destruct Hs as [<-|[<-|[]]]; vm_compute in H; discriminate H.
Qed.

(** ** The validator *)

Section SalaryValidation.

Lemma check_benefits_ok (benefits : list (string * Q)) :
  check_benefits benefits = Ok tt <-> Forall nonnegative benefits.
Proof.
  induction benefits as [|[name value] rest IH]; simpl.
  - split; [constructor|reflexivity].
  - destruct (Qlt_bool value 0) eqn:E.
    + apply Qlt_bool_iff in E. split; [discriminate|].
      intros H. apply Forall_cons in H. destruct H as [H _].
      unfold nonnegative in H. simpl in H. lra.
    + rewrite IH. split.
      * intros H. constructor; [|exact H]. unfold nonnegative. simpl.
        apply Qnot_lt_le. intros Hlt. apply Qlt_bool_iff in Hlt. congruence.
      * intros H. apply Forall_cons in H. tauto.
Qed.



Variables ctc base_salary : Q.
Variable benefits : list (string * Q).

Let gross_salary := base_salary + sum_values benefits.
Let monthly_ctc := ctc / 12.


End SalaryValidation.


Section EmployeeDataValidation.

Variable float_of_str : string -> option Q.
Variable v : validator.
Variable employee_data : gmap string value.

Let r := validate_employee_data float_of_str v employee_data.

(** C8: the first absent field among [ctc], [base_salary], [location], in
    that order, is reported; an absent [benefits] counts as an empty
    mapping; the location is validated before the salary, so that an
    unknown location is reported whatever the salary figures; and the
    value returned on success is the input with [location] replaced by its
    lowercase form. *)
Theorem validate_employee_data_order :
  (employee_data !! "ctc" = None -> r = Raise (MissingField "ctc"))
  /\ (is_Some (employee_data !! "ctc") ->
      employee_data !! "base_salary" = None ->
      r = Raise (MissingField "base_salary"))
  /\ (is_Some (employee_data !! "ctc") ->
      is_Some (employee_data !! "base_salary") ->
      employee_data !! "location" = None ->
      r = Raise (MissingField "location"))
  /\ (forall ctc base_salary location,
        employee_data !! "ctc" = Some (VNum ctc) ->
        employee_data !! "base_salary" = Some (VNum base_salary) ->
        employee_data !! "location" = Some (VStr location) ->
        (lower location ∉ allowed_states v ->
         r = Raise (InvalidLocation (lower location) (allowed_states v)))
        /\ (lower location ∈ allowed_states v ->
            forall items,
              employee_data !! "benefits" = None /\ items = []
              \/ employee_data !! "benefits" = Some (VDict items) ->
              r = (validate_salary ctc base_salary items ;;
                   Ok (<["location" := VStr (lower location)]> employee_data))))
  /\ (forall normalized_data,
        r = Ok normalized_data ->
        exists location,
          employee_data !! "location" = Some (VStr location)
          /\ normalized_data = <["location" := VStr (lower location)]> employee_data
          /\ normalized_data !! "location" = Some (VStr (lower location))
          /\ forall key, key <> "location" ->
                         normalized_data !! key = employee_data !! key).
Proof.
  subst r. unfold validate_employee_data, check_required, get_item.
  split; [intros Hc; rewrite Hc; reflexivity|].
  split; [intros [x Hc] Hb; rewrite Hc, Hb; reflexivity|].
  split; [intros [x Hc] [y Hb] Hl; rewrite Hc, Hb, Hl; reflexivity|].
  split.
  - intros ctc base_salary location Hc Hb Hl. rewrite Hc, Hb, Hl. simpl.
    unfold validate_location. split.
    + intros Hout. destruct (decide (lower location ∈ allowed_states v));
        [contradiction|reflexivity].
    + intros Hin items Hitems.
      destruct (decide (lower location ∈ allowed_states v)); [|contradiction].
      destruct Hitems as [[Hi Hnil]|Hi]; rewrite Hi; [rewrite Hnil|]; reflexivity.
  - intros normalized_data.
    destruct (employee_data !! "ctc") as [x|]; [|discriminate].
    destruct (employee_data !! "base_salary") as [y|]; [|discriminate].
    destruct (employee_data !! "location") as [z|] eqn:Hloc; [|discriminate].
    simpl.
    destruct (to_float float_of_str x) as [ctc|]; [|discriminate].
    simpl. destruct (to_float float_of_str y) as [base_salary|]; [|discriminate].
    simpl. destruct z as [|location|]; try discriminate.
    unfold validate_location.
    destruct (decide (lower location ∈ allowed_states v)); [|discriminate].
    simpl.
    match goal with
    | |- mbind _ ?c = _ -> _ => destruct c; [|discriminate]
    end.
    simpl. intros [= <-]. exists location.
    split; [reflexivity|]. split; [reflexivity|].
    split; [apply lookup_insert_eq|].
    intros key Hkey. apply lookup_insert_ne. congruence.
Qed.

End EmployeeDataValidation.

(** The sample record with and without benefits, with a field missing, and
    from an unknown state with a salary that would be rejected too. *)
Lemma validate_employee_data_order_witness :
  let validate := validate_employee_data (fun _ => None) sample_validator in
  validate (delete "ctc" (delete "location" sample_employee))
  = Raise (MissingField "ctc")
  /\ validate (delete "location" sample_employee) = Raise (MissingField "location")
  /\ validate (<["location" := VStr "Delhi"]>
                 (<["base_salary" := VNum (-1)]> sample_employee))
     = Raise (InvalidLocation "delhi" ["maharashtra"; "karnataka"])
  /\ validate (delete "benefits" sample_employee)
     = Ok (<["location" := VStr "maharashtra"]> (delete "benefits" sample_employee))
  /\ validate sample_employee
     = Ok (<["location" := VStr "maharashtra"]> sample_employee).
Proof.
  intros validate. subst validate.
  split.
  { apply (proj1 (validate_employee_data_order (fun _ => None) sample_validator
                    (delete "ctc" (delete "location" sample_employee)))).
    vm_compute. reflexivity. }
  split.
  { apply (proj1 (proj2 (proj2 (validate_employee_data_order (fun _ => None)
                    sample_validator (delete "location" sample_employee)))));
      vm_compute; eauto. }
  split.
  { apply (proj1 (proj2 (proj2 (proj2 (validate_employee_data_order (fun _ => None)
              sample_validator
              (<["location" := VStr "Delhi"]>
                 (<["base_salary" := VNum (-1)]> sample_employee))))))
             300000 (-1) "Delhi"); try (vm_compute; reflexivity).
    vm_compute. intros H. repeat (apply elem_of_cons in H; destruct H as [H|H];
                                  [discriminate H|]).
    apply elem_of_nil in H. exact H. }
  split.
  { assert (Hc : delete "benefits" sample_employee !! "ctc" = Some (VNum 300000))
      by (vm_compute; reflexivity).
    assert (Hb : delete "benefits" sample_employee !! "base_salary"
                 = Some (VNum 15000)) by (vm_compute; reflexivity).
    assert (Hl : delete "benefits" sample_employee !! "location"
                 = Some (VStr "Maharashtra")) by (vm_compute; reflexivity).
    assert (Hn : delete "benefits" sample_employee !! "benefits" = None)
      by (vm_compute; reflexivity).
    destruct (proj1 (proj2 (proj2 (proj2 (validate_employee_data_order
                 (fun _ => None) sample_validator
                 (delete "benefits" sample_employee)))))
                300000 15000 "Maharashtra" Hc Hb Hl) as [_ H].
    rewrite (H ltac:(vm_compute; left) [] (or_introl (conj Hn eq_refl))).
    reflexivity. }
  { assert (Hc : sample_employee !! "ctc" = Some (VNum 300000))
      by (vm_compute; reflexivity).
    assert (Hb : sample_employee !! "base_salary" = Some (VNum 15000))
      by (vm_compute; reflexivity).
    assert (Hl : sample_employee !! "location" = Some (VStr "Maharashtra"))
      by (vm_compute; reflexivity).
    assert (Hi : sample_employee !! "benefits"
                 = Some (VDict [("hra", 6000); ("conveyance", 1000)]))
      by (vm_compute; reflexivity).
    destruct (proj1 (proj2 (proj2 (proj2 (validate_employee_data_order
                 (fun _ => None) sample_validator sample_employee))))
                300000 15000 "Maharashtra" Hc Hb Hl) as [_ H].
    rewrite (H ltac:(vm_compute; left) [("hra", 6000); ("conveyance", 1000)]
               (or_intror Hi)).
    reflexivity. }
Defined.

(** ** Further facts about rounding *)

Section RoundingFacts.

Lemma round2_comp (x y : Q) : x == y -> round2 x = round2 y.
Proof.
  intros H. unfold round2.
  rewrite (round_half_even_comp (x * 100) (y * 100)); [reflexivity|].
  rewrite H. reflexivity.
Qed.

(** Rounding to the nearest integer keeps the order. *)
Lemma round_half_even_mono (x y : Q) :
  x <= y -> (round_half_even x <= round_half_even y)%Z.
Proof.
  intros Hle.
  destruct (Z_le_gt_dec (round_half_even x) (round_half_even y)) as [H|H];
    [exact H|exfalso].
  pose proof (round_half_even_close x) as Hx.
  pose proof (round_half_even_close y) as Hy.
  apply Qabs_Qle_condition in Hx. apply Qabs_Qle_condition in Hy.
  assert (Hgap : inject_Z (round_half_even y) + 1 <= inject_Z (round_half_even x)).
  { change 1 with (inject_Z 1). rewrite <- inject_Z_plus. rewrite <- Zle_Qle. lia. }
  assert (Heq : x == y).
  { destruct Hx as [_ Hx]. destruct Hy as [Hy _].
    set (a := inject_Z (round_half_even x)) in *.
    set (b := inject_Z (round_half_even y)) in *.
    clearbody a b. clear H. apply Qle_antisym; lra. }
  rewrite (round_half_even_comp _ _ Heq) in H. lia.
Qed.

Lemma round2_mono (x y : Q) : x <= y -> round2 x <= round2 y.
Proof.
  intros H. unfold round2.
  assert (H100 : x * 100 <= y * 100) by lra.
  pose proof (round_half_even_mono _ _ H100) as Hz.
  unfold Qle. simpl. lia.
Qed.

Lemma round2_nonneg (x : Q) : 0 <= x -> 0 <= round2 x.
Proof.
  intros H. apply (round2_mono 0 x) in H.
  assert (H0 : round2 0 == 0) by reflexivity. lra.
Qed.

(** An amount in hundredths that is less than [k + 1] hundredths in size is
    at most [k] hundredths in size. *)
Lemma hundredths_gap (n k : Z) :
  Qabs (n # 100) < (k + 1) # 100 -> Qabs (n # 100) <= k # 100.
Proof.
  intros H. apply Qabs_Qlt_condition in H. destruct H as [H1 H2].
  pose proof (Qmake_100 n) as En. pose proof (Qmake_100 k) as Ek.
  pose proof (Qmake_100 (k + 1)) as Ek1.
  rewrite inject_Z_plus in Ek1. change (inject_Z 1) with 1 in Ek1.
  assert (L1 : inject_Z (- k - 1) < inject_Z n).
  { unfold Zminus. rewrite inject_Z_plus, !inject_Z_opp.
    change (inject_Z 1) with 1.
    generalize dependent (inject_Z n). generalize dependent (inject_Z k).
    intros zk Ek Ek1 zn. intros. lra. }
  assert (L2 : inject_Z n < inject_Z (k + 1)).
  { rewrite inject_Z_plus. change (inject_Z 1) with 1.
    generalize dependent (inject_Z n). generalize dependent (inject_Z k).
    intros zk Ek Ek1 zn. intros. lra. }
  rewrite <- Zlt_Qlt in L1, L2.
  assert (M1 : inject_Z (- k) <= inject_Z n) by (rewrite <- Zle_Qle; lia).
  assert (M2 : inject_Z n <= inject_Z k) by (rewrite <- Zle_Qle; lia).
  rewrite inject_Z_opp in M1.
  apply Qabs_Qle_condition.
  generalize dependent (inject_Z n). generalize dependent (inject_Z k).
  intros zk Ek Ek1 zn. intros. split; lra.
Qed.

Lemma py_min_le_l (a b : Q) : py_min a b <= a.
Proof. rewrite py_min_Qmin. apply Q.le_min_l. Qed.

Lemma py_min_le_r (a b : Q) : py_min a b <= b.
Proof. rewrite py_min_Qmin. apply Q.le_min_r. Qed.

Lemma py_min_mono_l (a a' b : Q) : a <= a' -> py_min a b <= py_min a' b.
Proof. intros H. rewrite !py_min_Qmin. apply Q.min_le_compat_r. exact H. Qed.

Lemma py_min_nonneg (a b : Q) : 0 <= a -> 0 <= b -> 0 <= py_min a b.
Proof. intros Ha Hb. rewrite py_min_Qmin. apply Q.min_glb; assumption. Qed.

Lemma py_min_capped (a b : Q) : b <= a -> py_min a b == b.
Proof. intros H. rewrite py_min_Qmin. apply Q.min_r. exact H. Qed.

End RoundingFacts.

(** ** Sums of rounded amounts against the rounded sum *)

Section RoundedSums.

Lemma round2_sum2_close (x1 x2 : Q) :
  Qabs (round2 (x1 + x2) - (round2 x1 + round2 x2)) <= 1 # 100.
Proof.
  pose proof (round2_close x1) as C1. pose proof (round2_close x2) as C2.
  pose proof (round2_close (x1 + x2)) as CE.
  apply Qabs_Qle_condition in C1, C2, CE.
  assert (LE : Qabs (round2 (x1 + x2) - (round2 x1 + round2 x2)) < 2 # 100).
  { apply Qabs_Qlt_condition.
    generalize dependent (round2 (x1 + x2)).
    generalize dependent (round2 x1). generalize dependent (round2 x2).
    intros. split; lra. }
  clear C1 C2 CE. unfold round2 in *.
  set (n1 := round_half_even (x1 * 100)) in *.
  set (n2 := round_half_even (x2 * 100)) in *.
  set (ne := round_half_even ((x1 + x2) * 100)) in *.
  clearbody n1 n2 ne.
  assert (EE : (ne # 100) - ((n1 # 100) + (n2 # 100)) == (ne - n1 - n2) # 100).
  { rewrite (Qmake_100 (ne - n1 - n2)), (Qmake_100 ne), (Qmake_100 n1),
      (Qmake_100 n2).
    unfold Zminus. rewrite !inject_Z_plus, !inject_Z_opp. ring. }
  rewrite EE in LE. apply (hundredths_gap _ 1) in LE.
  rewrite <- EE in LE. exact LE.
Qed.

Lemma round2_sum4_close (x1 x2 x3 x4 : Q) :
  Qabs (round2 (x1 + x2 + x3 + x4)
        - (round2 x1 + round2 x2 + round2 x3 + round2 x4)) <= 2 # 100.
Proof.
  pose proof (round2_close x1) as C1.
  pose proof (round2_close x2) as C2. pose proof (round2_close x3) as C3.
  pose proof (round2_close x4) as C4.
  pose proof (round2_close (x1 + x2 + x3 + x4)) as CE.
  apply Qabs_Qle_condition in C1, C2, C3, C4, CE.
  assert (LE : Qabs (round2 (x1 + x2 + x3 + x4)
                     - (round2 x1 + round2 x2 + round2 x3 + round2 x4))
               < 3 # 100).
  { apply Qabs_Qlt_condition.
    generalize dependent (round2 (x1 + x2 + x3 + x4)).
    generalize dependent (round2 x1). generalize dependent (round2 x2).
    generalize dependent (round2 x3). generalize dependent (round2 x4).
    intros. split; lra. }
  clear C1 C2 C3 C4 CE. unfold round2 in *.
  set (n1 := round_half_even (x1 * 100)) in *.
  set (n2 := round_half_even (x2 * 100)) in *.
  set (n3 := round_half_even (x3 * 100)) in *.
  set (n4 := round_half_even (x4 * 100)) in *.
  set (ne := round_half_even ((x1 + x2 + x3 + x4) * 100)) in *.
  clearbody n1 n2 n3 n4 ne.
  assert (EE : (ne # 100) - ((n1 # 100) + (n2 # 100) + (n3 # 100) + (n4 # 100))
               == (ne - n1 - n2 - n3 - n4) # 100).
  { rewrite (Qmake_100 (ne - n1 - n2 - n3 - n4)), (Qmake_100 ne), (Qmake_100 n1),
      (Qmake_100 n2), (Qmake_100 n3), (Qmake_100 n4).
    unfold Zminus. rewrite !inject_Z_plus, !inject_Z_opp. ring. }
  rewrite EE in LE. apply (hundredths_gap _ 2) in LE.
  rewrite <- EE in LE. exact LE.
Qed.

Lemma round2_sum5_close (x0 x1 x2 x3 x4 : Q) :
  Qabs (round2 (x0 + x1 + x2 + x3 + x4)
        - (round2 x0 + round2 x1 + round2 x2 + round2 x3 + round2 x4))
  <= 3 # 100.
Proof.
  pose proof (round2_close x0) as C0. pose proof (round2_close x1) as C1.
  pose proof (round2_close x2) as C2. pose proof (round2_close x3) as C3.
  pose proof (round2_close x4) as C4.
  pose proof (round2_close (x0 + x1 + x2 + x3 + x4)) as CT.
  apply Qabs_Qle_condition in C0, C1, C2, C3, C4, CT.
  assert (LT : Qabs (round2 (x0 + x1 + x2 + x3 + x4)
                     - (round2 x0 + round2 x1 + round2 x2 + round2 x3 + round2 x4))
               < 4 # 100).
  { apply Qabs_Qlt_condition.
    generalize dependent (round2 (x0 + x1 + x2 + x3 + x4)).
    generalize dependent (round2 x0).
    generalize dependent (round2 x1). generalize dependent (round2 x2).
    generalize dependent (round2 x3). generalize dependent (round2 x4).
    intros. split; lra. }
  clear C0 C1 C2 C3 C4 CT. unfold round2 in *.
  set (n0 := round_half_even (x0 * 100)) in *.
  set (n1 := round_half_even (x1 * 100)) in *.
  set (n2 := round_half_even (x2 * 100)) in *.
  set (n3 := round_half_even (x3 * 100)) in *.
  set (n4 := round_half_even (x4 * 100)) in *.
  set (nt := round_half_even ((x0 + x1 + x2 + x3 + x4) * 100)) in *.
  clearbody n0 n1 n2 n3 n4 nt.
  assert (ET : (nt # 100)
               - ((n0 # 100) + (n1 # 100) + (n2 # 100) + (n3 # 100) + (n4 # 100))
               == (nt - n0 - n1 - n2 - n3 - n4) # 100).
  { rewrite (Qmake_100 (nt - n0 - n1 - n2 - n3 - n4)), (Qmake_100 nt),
      (Qmake_100 n0), (Qmake_100 n1), (Qmake_100 n2), (Qmake_100 n3), (Qmake_100 n4).
    unfold Zminus. rewrite !inject_Z_plus, !inject_Z_opp. ring. }
  rewrite ET in LT. apply (hundredths_gap _ 3) in LT.
  rewrite <- ET in LT. exact LT.
Qed.

End RoundedSums.

(** ** Provident fund: the ceiling, the order and the totals *)

Section ProvidentFundFacts.

Variable sd : state_data.

Let pf_data := provident_fund sd.

Lemma rate_part_mono (a a' rate : Q) :
  0 <= rate -> a <= a' -> a * (rate / 100) <= a' * (rate / 100).
Proof.
  intros Hr Ha. apply Qmult_le_compat_r; [exact Ha|].
  unfold Qdiv. apply Qmult_le_0_compat; [exact Hr|]. vm_compute. discriminate.
Qed.

Lemma rate_part_nonneg (a rate : Q) : 0 <= a -> 0 <= rate -> 0 <= a * (rate / 100).
Proof.
  intros Ha Hr. apply Qmult_le_0_compat; [exact Ha|].
  unfold Qdiv. apply Qmult_le_0_compat; [exact Hr|]. vm_compute. discriminate.
Qed.

(** At and above the salary ceiling the whole result is that of the
    ceiling: the base salary beyond it plays no part. *)
Theorem provident_fund_capped (base_salary : Q) :
  pf_salary_ceiling pf_data <= base_salary ->
  calculate_provident_fund sd base_salary
  = calculate_provident_fund sd (pf_salary_ceiling pf_data).
Proof.
  intros Hcap. unfold calculate_provident_fund. fold pf_data.
  pose proof (py_min_capped _ _ Hcap) as H1.
  pose proof (py_min_capped _ _ (Qle_refl (pf_salary_ceiling pf_data))) as H2.
  cbv zeta. f_equal; apply round2_comp; rewrite H1, H2; reflexivity.
Qed.

(** With rates that are not negative, a higher base salary never lowers a
    figure of the result. *)
Theorem provident_fund_monotone (b b' : Q) :
  0 <= pf_employee_contribution_rate pf_data ->
  0 <= pf_employer_epf_rate pf_data ->
  0 <= pf_employer_pension_rate pf_data ->
  0 <= pf_admin_charges_rate pf_data ->
  0 <= pf_edli_rate pf_data ->
  b <= b' ->
  let r := calculate_provident_fund sd b in
  let r' := calculate_provident_fund sd b' in
  pf_employee_contribution r <= pf_employee_contribution r'
  /\ pf_employer_epf_contribution r <= pf_employer_epf_contribution r'
  /\ pf_employer_pension_contribution r <= pf_employer_pension_contribution r'
  /\ pf_admin_charges r <= pf_admin_charges r'
  /\ pf_edli_charges r <= pf_edli_charges r'
  /\ pf_total_employer_contribution r <= pf_total_employer_contribution r'
  /\ pf_total_pf_contribution r <= pf_total_pf_contribution r'.
Proof.
  intros H1 H2 H3 H4 H5 Hb r r'. subst r r'.
  unfold calculate_provident_fund. fold pf_data. cbv zeta. simpl.
  pose proof (py_min_mono_l b b' (pf_salary_ceiling pf_data) Hb) as Hm.
  pose proof (rate_part_mono _ _ _ H1 Hm) as P1.
  pose proof (rate_part_mono _ _ _ H2 Hm) as P2.
  pose proof (rate_part_mono _ _ _ H3 Hm) as P3.
  pose proof (rate_part_mono _ _ _ H4 Hm) as P4.
  pose proof (rate_part_mono _ _ _ H5 Hm) as P5.
  repeat split; apply round2_mono; try assumption.
  - repeat apply Qplus_le_compat; assumption.
  - repeat apply Qplus_le_compat; assumption.
Qed.

(** The totals, rounded once, stay within 2 and 3 hundredths of the sums
    of the rounded components. *)
Theorem provident_fund_totals_close (base_salary : Q) :
  let r := calculate_provident_fund sd base_salary in
  Qabs (pf_total_employer_contribution r
        - (pf_employer_epf_contribution r + pf_employer_pension_contribution r
           + pf_admin_charges r + pf_edli_charges r)) <= 2 # 100
  /\ Qabs (pf_total_pf_contribution r
           - (pf_employee_contribution r + pf_employer_epf_contribution r
              + pf_employer_pension_contribution r + pf_admin_charges r
              + pf_edli_charges r)) <= 3 # 100.
Proof.
  intros r. subst r. unfold calculate_provident_fund. fold pf_data.
  cbv zeta. split; [apply round2_sum4_close|apply round2_sum5_close].
Qed.

End ProvidentFundFacts.

(** Above the ceiling of 15000, on the Maharashtra table. *)
Lemma provident_fund_capped_witness :
  calculate_provident_fund maharashtra_data 20000
  = calculate_provident_fund maharashtra_data 15000.
Proof.
  apply (provident_fund_capped maharashtra_data 20000). vm_compute. discriminate.
Defined.

Lemma provident_fund_monotone_witness :
  pf_employee_contribution (calculate_provident_fund maharashtra_data 9000)
  <= pf_employee_contribution (calculate_provident_fund maharashtra_data 12000).
Proof.
  apply (provident_fund_monotone maharashtra_data 9000 12000);
    vm_compute; discriminate.
Defined.

(** ** ESI and labour welfare fund: totals and frequencies *)

(** The ESI total, rounded once, is within one hundredth of the sum of the
    two rounded contributions, applicable or not. *)
Theorem esi_total_close (sd : state_data) (gross_salary : Q) :
  let r := calculate_esi sd gross_salary in
  Qabs (esi_total_contribution r
        - (esi_employee_contribution r + esi_employer_contribution r)) <= 1 # 100.
Proof.
  intros r. subst r. unfold calculate_esi.
  destruct (Qle_bool gross_salary (esi_income_threshold (esi sd))); cbv zeta.
  - apply round2_sum2_close.
  - vm_compute. discriminate.
Qed.

(** A payment frequency other than exactly ["semi-annual"] or ["annual"]
    leaves the amounts of the table undivided. *)
Theorem labour_welfare_fund_other_frequency (sd : state_data) :
  let rules := labour_welfare_fund sd in
  let r := calculate_labour_welfare_fund sd in
  lwf_payment_frequency rules <> "semi-annual" ->
  lwf_payment_frequency rules <> "annual" ->
  lwf_employee_contribution r = round2 (lwf_employee_amount rules)
  /\ lwf_employer_contribution r = round2 (lwf_employer_amount rules)
  /\ lwf_total_contribution r
     = round2 (lwf_employee_amount rules + lwf_employer_amount rules).
Proof.
  intros rules r H1 H2. subst r. unfold calculate_labour_welfare_fund. fold rules.
  apply String.eqb_neq in H1. apply String.eqb_neq in H2.
  rewrite H1, H2. repeat split.
Qed.

(** A monthly frequency, and a capitalised spelling of the annual one. *)
Lemma labour_welfare_fund_other_frequency_witness :
  lwf_employee_contribution
    (calculate_labour_welfare_fund
       (with_labour_welfare_fund maharashtra_data
          {| lwf_employee_amount := 6; lwf_employer_amount := 12;
             lwf_payment_frequency := "monthly" |})) = round2 6
  /\ lwf_employer_contribution
       (calculate_labour_welfare_fund
          (with_labour_welfare_fund karnataka_data
             {| lwf_employee_amount := 20; lwf_employer_amount := 40;
                lwf_payment_frequency := "Annual" |})) = round2 40.
Proof.
  split.
  - apply (labour_welfare_fund_other_frequency
             (with_labour_welfare_fund maharashtra_data
                {| lwf_employee_amount := 6; lwf_employer_amount := 12;
                   lwf_payment_frequency := "monthly" |})); discriminate.
  - apply (labour_welfare_fund_other_frequency
             (with_labour_welfare_fund karnataka_data
                {| lwf_employee_amount := 20; lwf_employer_amount := 40;
                   lwf_payment_frequency := "Annual" |})); discriminate.
Defined.

(** The labour welfare fund total is within one hundredth of the sum of
    the two rounded contributions. *)
Theorem labour_welfare_fund_total_close (sd : state_data) :
  let r := calculate_labour_welfare_fund sd in
  Qabs (lwf_total_contribution r
        - (lwf_employee_contribution r + lwf_employer_contribution r)) <= 1 # 100.
Proof.
  intros r. subst r. unfold calculate_labour_welfare_fund. cbv zeta.
  apply round2_sum2_close.
Qed.

(** ** The salary breakdown: how its figures relate *)


Section BreakdownFacts.

Variable sd : state_data.
Variables ctc base_salary : Q.
Variable benefits : list (string * Q).

Let r := calculate_net_salary sd ctc base_salary benefits.
Let monthly := employee_monthly r.
Let annual := employee_annual r.

Lemma sum_values_from (l : list (string * Q)) (acc : Q) :
  fold_left (fun a kv => a + snd kv) l acc == acc + sum_values l.
Proof.
  unfold sum_values. revert acc.
  induction l as [|kv l IH]; intros acc; simpl; [ring|].
  rewrite (IH (acc + snd kv)), (IH (0 + snd kv)). ring.
Qed.

Lemma sum_values_cons (kv : string * Q) (l : list (string * Q)) :
  sum_values (kv :: l) == snd kv + sum_values l.
Proof.
  unfold sum_values at 1. simpl. rewrite sum_values_from. ring.
Qed.

Lemma sum_values_scaled (l : list (string * Q)) (k : Q) :
  sum_values (map (fun kv => (fst kv, snd kv * k)) l) == sum_values l * k.
Proof.
  induction l as [|kv l IH]; [reflexivity|].
  simpl map. rewrite !sum_values_cons, IH. simpl. ring.
Qed.

Lemma sum_values_nonneg (l : list (string * Q)) :
  Forall nonnegative l -> 0 <= sum_values l.
Proof.
  induction 1 as [|kv l Hkv _ IH]; [vm_compute; discriminate|].
  rewrite sum_values_cons. unfold nonnegative in Hkv. lra.
Qed.

(** The annual view keeps the names and the order of the benefits, takes
    each amount twelve times, and its gross salary is its base salary plus
    its benefits. *)
Theorem annual_benefits :
  map fst (ev_benefits annual) = map fst benefits
  /\ map snd (ev_benefits annual) = map (fun kv => snd kv * 12) benefits
  /\ sum_values (ev_benefits annual) == sum_values benefits * 12
  /\ ev_gross_salary annual
     == ev_base_salary annual + sum_values (ev_benefits annual).
Proof.
  subst annual r. breakdown_fields.
  split; [rewrite map_map; reflexivity|].
  split; [rewrite map_map; reflexivity|].
  split; [apply sum_values_scaled|].
  rewrite sum_values_scaled. ring.
Qed.

(** The annual net salary is twelve times the monthly one only while the
    annual ceiling of the professional tax is not reached; beyond it the
    annual net salary is the larger. *)
Theorem annual_net_against_monthly :
  ev_net_salary monthly * 12 <= ev_net_salary annual
  /\ (d_professional_tax (ev_deductions monthly) * 12
        <= annual_ceiling (professional_tax sd)
      <-> ev_net_salary annual == ev_net_salary monthly * 12)
  /\ ev_net_salary annual - ev_net_salary monthly * 12
     == d_professional_tax (ev_deductions monthly) * 12
        - d_professional_tax (ev_deductions annual).
Proof.
  subst monthly annual r. breakdown_fields.
  set (pt := calculate_professional_tax sd (base_salary + sum_values benefits)).
  set (pf := pf_employee_contribution (calculate_provident_fund sd base_salary)).
  set (es := esi_employee_contribution
               (calculate_esi sd (base_salary + sum_values benefits))).
  set (lw := lwf_employee_contribution (calculate_labour_welfare_fund sd)).
  set (g := base_salary + sum_values benefits).
  set (c := annual_ceiling (professional_tax sd)).
  pose proof (py_min_Qmin (pt * 12) c) as Hm.
  pose proof (Q.le_min_l (pt * 12) c) as Hl.
  pose proof (Q.min_spec_le (pt * 12) c) as Hs.
  set (m := py_min (pt * 12) c) in *.
  set (qm := Qmin (pt * 12) c) in *.
  clearbody pt pf es lw g c m qm.
  split; [lra|]. split; [|ring].
  split; intros H.
  - destruct Hs as [[_ Hs]|[Hs' Hs]]; lra.
  - destruct Hs as [[Hs' Hs]|[Hs' Hs]]; lra.
Qed.

(** The calculated CTC is the annual gross salary plus the annual employer
    contributions; the difference to the provided CTC is never negative and
    is 0 exactly when the two agree. *)
Theorem ctc_reconciliation :
  ctc_calculated (ctc_info r)
  == ev_gross_salary annual + er_total_contributions (employer_annual r)
  /\ ctc_provided (ctc_info r) = ctc
  /\ 0 <= ctc_difference (ctc_info r)
  /\ (ctc_difference (ctc_info r) == 0
      <-> ctc_calculated (ctc_info r) == ctc).
Proof.
  subst annual r. breakdown_fields.
  split; [ring|]. split; [reflexivity|]. split; [apply Qabs_nonneg|].
  set (calc := (base_salary + sum_values benefits
                + (pf_total_employer_contribution
                     (calculate_provident_fund sd base_salary)
                   + esi_employer_contribution
                       (calculate_esi sd (base_salary + sum_values benefits))
                   + lwf_employer_contribution (calculate_labour_welfare_fund sd)))
               * 12).
  clearbody calc. split; intros H.
  - assert (Hle : Qabs (calc - ctc) <= 0) by lra.
    apply Qabs_Qle_condition in Hle. lra.
  - assert (Hz : calc - ctc == 0) by lra. rewrite Hz. reflexivity.
Qed.

(** The employer total of the breakdown is within 2 hundredths of the sum
    of the six employer items it is shown with. *)
Theorem employer_total_against_items :
  let e := employer_monthly r in
  Qabs (er_total_contributions e
        - (er_epf_contribution (er_pf_details e)
           + er_pension_contribution (er_pf_details e)
           + er_admin_charges (er_pf_details e)
           + er_edli_charges (er_pf_details e)
           + er_esi_contribution e + er_labour_welfare_fund e)) <= 2 # 100.
Proof.
  intros e. subst e r. breakdown_fields.
  unfold calculate_provident_fund. cbv zeta.
  cbn [pf_total_employer_contribution pf_employer_epf_contribution
       pf_employer_pension_contribution pf_admin_charges pf_edli_charges].
  set (capped := py_min base_salary (pf_salary_ceiling (provident_fund sd))).
  set (x1 := capped * (pf_employer_epf_rate (provident_fund sd) / 100)).
  set (x2 := capped * (pf_employer_pension_rate (provident_fund sd) / 100)).
  set (x3 := capped * (pf_admin_charges_rate (provident_fund sd) / 100)).
  set (x4 := capped * (pf_edli_rate (provident_fund sd) / 100)).
  pose proof (round2_sum4_close x1 x2 x3 x4) as H.
  set (es := esi_employer_contribution
               (calculate_esi sd (base_salary + sum_values benefits))).
  set (lw := lwf_employer_contribution (calculate_labour_welfare_fund sd)).
  assert (E : round2 (x1 + x2 + x3 + x4) + es + lw
              - (round2 x1 + round2 x2 + round2 x3 + round2 x4 + es + lw)
              == round2 (x1 + x2 + x3 + x4)
                 - (round2 x1 + round2 x2 + round2 x3 + round2 x4)) by ring.
  rewrite E. exact H.
Qed.


Lemma scan_slabs_nonneg (slabs : list slab) (salary : Q) :
  Forall (fun s => 0 <= slab_tax s) slabs -> 0 <= scan_slabs slabs salary.
Proof.
  induction 1 as [|s rest Hs _ IH]; simpl; [vm_compute; discriminate|].
  destruct (slab_matches salary s); assumption.
Qed.

Lemma esi_employee_nonneg (gross_salary : Q) :
  0 <= gross_salary -> 0 <= esi_employee_contribution_rate (esi sd) ->
  0 <= esi_employee_contribution (calculate_esi sd gross_salary).
Proof.
  intros Hg Hr. unfold calculate_esi.
  destruct (Qle_bool gross_salary (esi_income_threshold (esi sd))); cbv zeta;
    cbn [esi_employee_contribution]; [|vm_compute; discriminate].
  apply round2_nonneg, rate_part_nonneg; assumption.
Qed.

Lemma lwf_employee_nonneg :
  0 <= lwf_employee_amount (labour_welfare_fund sd) ->
  0 <= lwf_employee_contribution (calculate_labour_welfare_fund sd).
Proof.
  intros Ha. unfold calculate_labour_welfare_fund. cbv zeta.
  cbn [lwf_employee_contribution]. apply round2_nonneg.
  destruct (String.eqb _ "semi-annual");
    [|destruct (String.eqb _ "annual")]; try exact Ha;
    unfold Qdiv; apply Qmult_le_0_compat; try exact Ha; vm_compute; discriminate.
Qed.

(** On a table without negative amounts or rates, and for a salary without
    negative parts, the deductions are not negative and the net salary does
    not exceed the gross salary, by month and by year. *)
Theorem net_salary_at_most_gross :
  Forall (fun s => 0 <= slab_tax s) (monthly_slabs (professional_tax sd)) ->
  0 <= annual_ceiling (professional_tax sd) ->
  0 <= pf_employee_contribution_rate (provident_fund sd) ->
  0 <= pf_salary_ceiling (provident_fund sd) ->
  0 <= esi_employee_contribution_rate (esi sd) ->
  0 <= lwf_employee_amount (labour_welfare_fund sd) ->
  0 <= base_salary ->
  Forall nonnegative benefits ->
  0 <= d_total_deductions (ev_deductions monthly)
  /\ ev_net_salary monthly <= ev_gross_salary monthly
  /\ 0 <= d_total_deductions (ev_deductions annual)
  /\ ev_net_salary annual <= ev_gross_salary annual.
Proof.
  intros Htax Hceil Hrate Hcap Hesi Hlwf Hbase Hben.
  pose proof (sum_values_nonneg _ Hben) as Hsum.
  assert (Hg : 0 <= base_salary + sum_values benefits) by lra.
  pose proof (scan_slabs_nonneg _ (base_salary + sum_values benefits) Htax) as Hpt.
  pose proof (esi_employee_nonneg _ Hg Hesi) as Hes.
  pose proof (lwf_employee_nonneg Hlwf) as Hlw.
  assert (Hpf : 0 <= pf_employee_contribution
                       (calculate_provident_fund sd base_salary)).
  { unfold calculate_provident_fund. cbv zeta. cbn [pf_employee_contribution].
    apply round2_nonneg, rate_part_nonneg; [|exact Hrate].
    apply py_min_nonneg; assumption. }
  subst monthly annual r. breakdown_fields.
  unfold calculate_professional_tax.
  set (pt := scan_slabs _ _) in *.
  assert (Hmin : 0 <= py_min (pt * 12) (annual_ceiling (professional_tax sd))).
  { apply py_min_nonneg; [lra|exact Hceil]. }
  set (m := py_min _ _) in *.
  set (pf := pf_employee_contribution _) in *.
  set (es := esi_employee_contribution _) in *.
  set (lw := lwf_employee_contribution _) in *.
  set (g := base_salary + sum_values benefits) in *.
  clearbody pt m pf es lw g. repeat split; lra.
Qed.

End BreakdownFacts.

(** The Maharashtra table and the salary of the tests. *)
Lemma net_salary_at_most_gross_witness :
  let r := calculate_net_salary maharashtra_data 300000 15000
             [("hra", 6000); ("conveyance", 1000)] in
  ev_net_salary (employee_monthly r) <= ev_gross_salary (employee_monthly r)
  /\ ev_net_salary (employee_annual r) <= ev_gross_salary (employee_annual r).
Proof.
  assert (H : Forall (fun s => 0 <= slab_tax s)
                (monthly_slabs (professional_tax maharashtra_data))).
  { repeat constructor; vm_compute; discriminate. }
  assert (Hb : Forall nonnegative [("hra", 6000); ("conveyance", 1000)]).
  { repeat constructor; vm_compute; discriminate. }
  destruct (net_salary_at_most_gross maharashtra_data 300000 15000
              [("hra", 6000); ("conveyance", 1000)] H) as (_ & H1 & _ & H2);
    try exact Hb; try (vm_compute; discriminate).
  split; [exact H1|exact H2].
Defined.

(** ** The validator: locations *)

Section LocationFacts.

Lemma lower_ascii_idempotent (c : Ascii.ascii) :
  lower_ascii (lower_ascii c) = lower_ascii c.
Proof.
  destruct c as [b0 b1 b2 b3 b4 b5 b6 b7].
  destruct b0, b1, b2, b3, b4, b5, b6, b7; reflexivity.
Qed.

Lemma lower_idempotent (s : string) : lower (lower s) = lower s.
Proof.
  induction s as [|c s IH]; simpl; [reflexivity|].
  rewrite lower_ascii_idempotent, IH. reflexivity.
Qed.

Variable v : validator.

(** The outcome depends on the location up to letter case only; an accepted
    location comes back in lowercase, is one of the allowed states and is
    accepted again as it is; a rejected one is reported in lowercase with
    the list of allowed states. *)
Theorem validate_location_normalises (location : string) :
  (forall other, lower other = lower location ->
                 validate_location v other = validate_location v location)
  /\ (forall s, validate_location v location = Ok s ->
                s = lower location
                /\ s ∈ allowed_states v
                /\ validate_location v s = Ok s)
  /\ (forall e, validate_location v location = Raise e ->
                e = InvalidLocation (lower location) (allowed_states v)
                /\ lower location ∉ allowed_states v).
Proof.
  unfold validate_location. split; [|split].
  - intros other H. rewrite H. reflexivity.
  - intros s. destruct (decide (lower location ∈ allowed_states v)) as [Hin|Hout];
      [|discriminate].
    intros [= <-]. split; [reflexivity|]. split; [exact Hin|].
    rewrite lower_idempotent.
    destruct (decide (lower location ∈ allowed_states v)); [reflexivity|contradiction].
  - intros e. destruct (decide (lower location ∈ allowed_states v)) as [Hin|Hout];
      [discriminate|].
    intros [= <-]. split; [reflexivity|exact Hout].
Qed.

End LocationFacts.

Lemma validate_location_normalises_witness :
  validate_location sample_validator "karnataka"
  = validate_location sample_validator "KARNATAKA"
  /\ validate_location sample_validator "karnataka" = Ok "karnataka".
Proof.
  pose proof (validate_location_normalises sample_validator "KARNATAKA")
    as (H1 & H2 & _).
  assert (E : validate_location sample_validator "karnataka"
              = validate_location sample_validator "KARNATAKA")
    by (apply H1; reflexivity).
  split; [exact E|]. rewrite E.
  apply (H2 "karnataka"). vm_compute. reflexivity.
Defined.

(** A validator built from a list of states stores them in lowercase and
    accepts each of them in any letter case. *)
Theorem new_validator_accepts_its_states (states : list string) (s s' : string) :
  s ∈ states ->
  lower s' = lower s ->
  validate_location (new_validator (Some states)) s' = Ok (lower s)
  /\ Forall (fun a => lower a = a) (allowed_states (new_validator (Some states))).
Proof.
  intros Hin Hcase. split.
  - unfold validate_location, new_validator. cbn [allowed_states].
    rewrite Hcase.
    destruct (decide (lower s ∈ map lower states)) as [_|Hout]; [reflexivity|].
    exfalso. apply Hout. apply list_elem_of_In. apply in_map.
    apply list_elem_of_In. exact Hin.
  - unfold new_validator. cbn [allowed_states].
    apply Forall_forall. intros a Ha.
    apply list_elem_of_In, in_map_iff in Ha. destruct Ha as (a0 & <- & _).
    apply lower_idempotent.
Qed.

Lemma new_validator_accepts_its_states_witness :
  validate_location (new_validator (Some ["Maharashtra"; "Goa"])) "GOA" = Ok "goa".
Proof.
  apply (new_validator_accepts_its_states ["Maharashtra"; "Goa"] "Goa" "GOA").
  - apply list_elem_of_In. right. left. reflexivity.
  - reflexivity.
Defined.

(** ** The validator: salaries *)

Section SalaryFacts.

Variables ctc base_salary : Q.
Variable benefits : list (string * Q).

(** What a passed validation guarantees. *)
Lemma validate_salary_ok_inv (b : bool) :
  validate_salary ctc base_salary benefits = Ok b ->
  b = true /\ 0 < ctc /\ 0 < base_salary /\ Forall nonnegative benefits
  /\ base_salary + sum_values benefits <= ctc / 12 + 1.
Proof.
  unfold validate_salary, check_positive.
  destruct (Qle_bool ctc 0) eqn:E1; [discriminate|].
  destruct (Qle_bool base_salary 0) eqn:E2; [discriminate|].
  cbn [mbind result_bind].
  destruct (check_benefits benefits) as [[]|e] eqn:E3; [|discriminate].
  cbn [mbind result_bind].
  destruct (Qlt_bool (ctc / 12 + 1) (base_salary + sum_values benefits)) eqn:E4;
    [discriminate|].
  intros [= <-].
  apply Qle_bool_false in E1. apply Qle_bool_false in E2.
  apply check_benefits_ok in E3.
  repeat split; try assumption.
  apply Qnot_lt_le. intros H. apply Qlt_bool_iff in H. congruence.
Qed.


(** A salary that passed the validator gives a breakdown whose monthly
    gross salary is the one the validator checked: positive and at most
    [ctc / 12 + 1]. *)
Theorem validated_salary_gross (sd : state_data) :
  validate_salary ctc base_salary benefits = Ok true ->
  let r := calculate_net_salary sd ctc base_salary benefits in
  ev_gross_salary (employee_monthly r) = base_salary + sum_values benefits
  /\ 0 < ev_gross_salary (employee_monthly r)
  /\ ev_gross_salary (employee_monthly r) <= ctc / 12 + 1.
Proof.
  intros H r. subst r. breakdown_fields.
  apply validate_salary_ok_inv in H. destruct H as (_ & H1 & H2 & H3 & H4).
  pose proof (sum_values_nonneg _ H3) as Hs.
  split; [reflexivity|]. split; [|exact H4].
  set (g := sum_values benefits) in *. clearbody g. lra.
Qed.

End SalaryFacts.


Lemma validated_salary_gross_witness :
  let r := calculate_net_salary maharashtra_data 300000 15000
             [("hra", 6000); ("conveyance", 1000)] in
  0 < ev_gross_salary (employee_monthly r)
  /\ ev_gross_salary (employee_monthly r) <= 300000 / 12 + 1.
Proof.
  exact (proj2 (validated_salary_gross 300000 15000
                  [("hra", 6000); ("conveyance", 1000)] maharashtra_data eq_refl)).
Defined.

(** ** The validator: employee records *)

Section EmployeeDataFacts.

Variable float_of_str : string -> option Q.
Variable v : validator.

(** A record that passed comes back unchanged when validated again. *)
Theorem validate_employee_data_idempotent
    (employee_data normalized_data : gmap string value) :
  validate_employee_data float_of_str v employee_data = Ok normalized_data ->
  validate_employee_data float_of_str v normalized_data = Ok normalized_data.
Proof.
  unfold validate_employee_data, check_required, get_item.
  destruct (employee_data !! "ctc") as [x|] eqn:Hc; [|discriminate].
  destruct (employee_data !! "base_salary") as [y|] eqn:Hb; [|discriminate].
  destruct (employee_data !! "location") as [z|] eqn:Hl; [|discriminate].
  cbn [mbind result_bind].
  destruct (to_float float_of_str x) as [ctc|] eqn:Hx; [|discriminate].
  cbn [mbind result_bind].
  destruct (to_float float_of_str y) as [base_salary|] eqn:Hy; [|discriminate].
  cbn [mbind result_bind].
  destruct z as [|location|]; try discriminate.
  unfold validate_location.
  destruct (decide (lower location ∈ allowed_states v)) as [Hin|]; [|discriminate].
  cbn [mbind result_bind].
  set (benefits := default (VDict []) (employee_data !! "benefits")).
  destruct (match benefits with
            | VDict items => validate_salary ctc base_salary items
            | _ => check_positive ctc base_salary ;; Raise TypeError_
            end) as [ok|] eqn:Hs; [|discriminate].
  cbn [mbind result_bind]. intros [= <-].
  rewrite (lookup_insert_ne employee_data "location" "ctc") by discriminate.
  rewrite (lookup_insert_ne employee_data "location" "base_salary") by discriminate.
  rewrite (lookup_insert_ne employee_data "location" "benefits") by discriminate.
  rewrite lookup_insert_eq, Hc, Hb.
  cbn [mbind result_bind]. rewrite Hx. cbn [mbind result_bind].
  rewrite Hy. cbn [mbind result_bind].
  rewrite lower_idempotent.
  destruct (decide (lower location ∈ allowed_states v)); [|contradiction].
  cbn [mbind result_bind]. fold benefits. rewrite Hs.
  cbn [mbind result_bind]. rewrite insert_insert_eq. reflexivity.
Qed.

(** A key that the validator does not read has no part in the outcome and
    is carried into the returned record. *)
Theorem validate_employee_data_other_key
    (employee_data : gmap string value) (key : string) (x : value) :
  key <> "ctc" -> key <> "base_salary" -> key <> "location" ->
  key <> "benefits" ->
  validate_employee_data float_of_str v (<[key := x]> employee_data)
  = match validate_employee_data float_of_str v employee_data with
    | Ok normalized_data => Ok (<[key := x]> normalized_data)
    | Raise e => Raise e
    end.
Proof.
  intros H1 H2 H3 H4.
  unfold validate_employee_data, check_required, get_item.
  rewrite (lookup_insert_ne employee_data key "ctc") by congruence.
  rewrite (lookup_insert_ne employee_data key "base_salary") by congruence.
  rewrite (lookup_insert_ne employee_data key "location") by congruence.
  rewrite (lookup_insert_ne employee_data key "benefits") by congruence.
  destruct (employee_data !! "ctc") as [c|]; [|reflexivity].
  destruct (employee_data !! "base_salary") as [b|]; [|reflexivity].
  destruct (employee_data !! "location") as [z|]; [|reflexivity].
  cbn [mbind result_bind].
  destruct (to_float float_of_str c) as [ctc|]; [|reflexivity].
  cbn [mbind result_bind].
  destruct (to_float float_of_str b) as [base_salary|]; [|reflexivity].
  cbn [mbind result_bind].
  destruct (match z with
            | VStr s => validate_location v s
            | _ => Raise TypeError_
            end) as [normalized_location|]; [|reflexivity].
  cbn [mbind result_bind].
  destruct (match default (VDict []) (employee_data !! "benefits") with
            | VDict items => validate_salary ctc base_salary items
            | _ => check_positive ctc base_salary ;; Raise TypeError_
            end) as [ok|]; [|reflexivity].
  cbn [mbind result_bind]. f_equal. apply insert_insert_ne. congruence.
Qed.

End EmployeeDataFacts.

Lemma validate_employee_data_idempotent_witness :
  validate_employee_data (fun _ => None) sample_validator
    (<["location" := VStr "maharashtra"]> sample_employee)
  = Ok (<["location" := VStr "maharashtra"]> sample_employee).
Proof.
  apply (validate_employee_data_idempotent (fun _ => None) sample_validator
           sample_employee).
  vm_compute. reflexivity.
Defined.

Lemma validate_employee_data_other_key_witness :
  validate_employee_data (fun _ => None) sample_validator
    (<["employee_id" := VStr "E042"]> sample_employee)
  = Ok (<["employee_id" := VStr "E042"]>
          (<["location" := VStr "maharashtra"]> sample_employee)).
Proof.
  rewrite (validate_employee_data_other_key (fun _ => None) sample_validator
             sample_employee "employee_id" (VStr "E042"));
    try discriminate.
  vm_compute. reflexivity.
Defined.

(** ** The summary of a breakdown *)

Section SummaryFacts.

Variable sd : state_data.
Variables ctc base_salary : Q.
Variable benefits : list (string * Q).
Variables now employee_id : string.

Let r := calculate_net_salary sd ctc base_salary benefits.
Let s := generate_summary_report now employee_id r.

(** In the summary of a breakdown the net salaries are the gross salaries
    less the total deductions; the three key deductions leave out the
    labour welfare fund, so they add up to the monthly total less that
    contribution; and the employer contributions are the monthly ones, from
    which the calculated CTC follows. *)
Theorem summary_of_breakdown :
  ms_net_salary (sr_monthly_summary s)
  == ms_gross_salary (sr_monthly_summary s)
     - ms_total_deductions (sr_monthly_summary s)
  /\ as_net_salary (sr_annual_summary s)
     == as_gross_salary (sr_annual_summary s)
        - as_total_deductions (sr_annual_summary s)
  /\ kd_pf (sr_key_deductions s) + kd_professional_tax (sr_key_deductions s)
     + kd_esi (sr_key_deductions s)
     == ms_total_deductions (sr_monthly_summary s)
        - lwf_employee_contribution (calculate_labour_welfare_fund sd)
  /\ as_ctc (sr_annual_summary s) = ctc
  /\ sr_state s = state_name sd
  /\ ctc_calculated (ctc_info r)
     == (ms_gross_salary (sr_monthly_summary s) + sr_employer_contributions s) * 12.
Proof.
  subst s r. unfold generate_summary_report. cbv zeta.
  cbn [sr_monthly_summary sr_annual_summary sr_key_deductions
       sr_employer_contributions sr_state
       ms_net_salary ms_gross_salary ms_total_deductions
       as_ctc as_net_salary as_gross_salary as_total_deductions
       kd_pf kd_professional_tax kd_esi].
  breakdown_fields.
  repeat split; try reflexivity; ring.
Qed.

End SummaryFacts.
